(** * Job search metrics: a shallow embedding of [analyze_job_search.py]

    The script loads one table of job applications and derives counts,
    percentages, per-month series and a display table from it.  The table is
    modelled as a list of rows, pandas operations as list functions, Python
    exceptions as an error result, and the floating-point values the script
    prints as exact rationals extended with NaN (rounding is not modelled). *)

From Stdlib Require Import QArith.
From stdpp Require Import gmap strings list list_numbers sorting pretty.

Local Open Scope string_scope.
Local Open Scope list_scope.

(** ** Values *)

(** The exceptions the metric code can raise. *)
Inductive exn := ZeroDivisionError | AttributeError | KeyError.

Inductive result (A : Type) :=
  | Ok (a : A)
  | Raise (e : exn).
Arguments Ok {A} a.
Arguments Raise {A} e.

#[global] Instance result_ret : MRet result := fun _ a => Ok a.
#[global] Instance result_bind : MBind result := fun _ _ f m =>
  match m with Ok a => f a | Raise e => Raise e end.

(** A Python/numpy float: a rational value, or NaN. *)
Inductive float := nan | fl (q : Q).

Definition of_int (n : nat) : Q := inject_Z (Z.of_nat n).

(** [a / b] on Python ints (true division). *)
Definition truediv (a b : nat) : result float :=
  match b with
  | O => Raise ZeroDivisionError
  | S _ => Ok (fl (of_int a / of_int b))
  end.

(** [x * 100] on floats; NaN propagates. *)
Definition times100 (x : float) : float :=
  match x with nan => nan | fl q => fl (q * 100) end.

(** [Series.mean()] of a boolean series: NaN when the series is empty. *)
Definition mean_bool (l : list bool) : float :=
  match l with
  | [] => nan
  | _ => fl (of_int (length (filter (λ b, b = true) l)) / of_int (length l))
  end.

(** [Series.mean()] of an integer series. *)
Definition mean_int (l : list Z) : float :=
  match l with
  | [] => nan
  | _ => fl (inject_Z (foldr Z.add 0%Z l) / of_int (length l))
  end.

(** ** The record store *)

Record Timestamp := { year : Z; month : Z; day : Z }.

(** One row of the table; [D] is the type of the [Date] column, a
    [Timestamp] after [load_data] and a string once formatted for display. *)
Record Row (D : Type) := {
  Date : D;
  Company : string;
  Title : string;
  Quality : Z;
  Interviews : string;
  Recruiter : string;
  Local_Remote : string;
  Closed : string
}.
Arguments Date {D} _.
Arguments Company {D} _.
Arguments Title {D} _.
Arguments Quality {D} _.
Arguments Interviews {D} _.
Arguments Recruiter {D} _.
Arguments Local_Remote {D} _.
Arguments Closed {D} _.

Abbreviation DataFrame := (list (Row Timestamp)).

(** [Series.unique()]: distinct values in order of first appearance. *)
Fixpoint unique (l : list Z) : list Z :=
  match l with
  | [] => []
  | x :: l' => x :: filter (λ y, y ≠ x) (unique l')
  end.

(** [Series.nunique()] on a text column. *)
Fixpoint unique_str (l : list string) : list string :=
  match l with
  | [] => []
  | x :: l' => x :: filter (λ y, y ≠ x) (unique_str l')
  end.

(** Python's [sorted] on integers. *)
Definition sorted (l : list Z) : list Z := merge_sort Z.le l.

(** ** [generate_basic_metrics] *)

Record BasicMetrics := {
  Total_Applications : nat;
  Unique_Companies : nat;
  Applications_with_Interviews : nat;
  Applications_with_Recruiters : nat;
  Remote_Positions : nat;
  Local_Positions : nat;
  Closed_Positions : nat;
  Open_Positions : nat;
  Unknown_Status_Positions : nat;
  Average_Quality_Score : float
}.

Definition generate_basic_metrics (df : DataFrame) : BasicMetrics := {|
  Total_Applications := length df;
  Unique_Companies := length (unique_str (Company <$> df));
  Applications_with_Interviews := length (filter (λ r, Interviews r = "Y") df);
  Applications_with_Recruiters := length (filter (λ r, Recruiter r = "Y") df);
  Remote_Positions := length (filter (λ r, Local_Remote r = "Remote") df);
  Local_Positions := length (filter (λ r, Local_Remote r = "Local") df);
  Closed_Positions := length (filter (λ r, Closed r = "Y") df);
  Open_Positions := length (filter (λ r, Closed r = "N") df);
  Unknown_Status_Positions := length (filter (λ r, Closed r = "I") df);
  Average_Quality_Score := mean_int (Quality <$> df)
|}.

(** ** Monthly resampling *)

(** The calendar month of a timestamp, as a running month number. *)
Definition month_ord (t : Timestamp) : Z := year t * 12 + (month t - 1).

(** A series indexed by month: (month, count) pairs in index order. *)
Abbreviation MonthSeries := (list (Z * nat)).

(** [df.resample('M', on='Date').size()]: one bin per calendar month from the
    month of the earliest date to the month of the latest date, holding the
    number of rows dated in that month; an empty frame gives an empty series. *)
Definition resample_M_size (df : DataFrame) : MonthSeries :=
  match (month_ord ∘ Date) <$> df with
  | [] => []
  | m :: ms =>
      let lo := foldr Z.min m ms in
      let hi := foldr Z.max m ms in
      (λ k, (k, length (filter (λ r, month_ord (Date r) = k) df)))
        <$> seqZ lo (hi - lo + 1)
  end.

(** [df[col].value_counts()] on a text column, as a map from value to count
    (the order of the entries is not modelled). *)
Definition value_counts (l : list string) : gmap string nat :=
  foldr (λ x m, <[x := S (default O (m !! x))]> m) ∅ l.

(** [series.reindex(idx, fill_value=0)]. *)
Definition reindex (s : MonthSeries) (idx : list Z) : MonthSeries :=
  (λ m, (m, default O ((list_to_map s : gmap Z nat) !! m))) <$> idx.

(** ** The plotted series *)

Definition plot_applications_over_time (df : DataFrame) : MonthSeries :=
  let monthly_apps := resample_M_size df in
  monthly_apps.

Definition plot_interviews_per_month (df : DataFrame) : MonthSeries :=
  let monthly_interviews :=
    resample_M_size (filter (λ r, Interviews r = "Y") df) in
  monthly_interviews.

Definition plot_quality_distribution (df : DataFrame) : list Z :=
  Quality <$> df.

Module HighQualityPerMonth.
Record t := {
  all_months : list Z;
  monthly_q1 : MonthSeries;
  monthly_q2 : MonthSeries
}.
End HighQualityPerMonth.

(** The month axis shared by the two series: the sorted union of their
    indexes, each series reindexed on it with missing months filled by 0. *)
Definition same_index (monthly_q1 monthly_q2 : MonthSeries) : HighQualityPerMonth.t :=
  let all_months :=
    sorted (elements ((list_to_set monthly_q1.*1 : gset Z)
                        ∪ list_to_set monthly_q2.*1)) in
  {| HighQualityPerMonth.all_months := all_months;
     HighQualityPerMonth.monthly_q1 := reindex monthly_q1 all_months;
     HighQualityPerMonth.monthly_q2 := reindex monthly_q2 all_months |}.

Definition plot_high_quality_interviews_per_month (df : DataFrame)
  : HighQualityPerMonth.t :=
  let interviews_df := filter (λ r, Interviews r = "Y") df in
  let q1_interviews := filter (λ r, Quality r = 1%Z) interviews_df in
  let q2_interviews := filter (λ r, Quality r = 2%Z) interviews_df in
  let monthly_q1 := resample_M_size q1_interviews in
  let monthly_q2 := resample_M_size q2_interviews in
  same_index monthly_q1 monthly_q2.

(** ** [analyze_interview_success] *)

Definition is_Y (x : string) : bool := bool_decide (x = "Y").

(** [df.groupby('Quality')]: the groups in ascending key order. *)
Definition groupby_Quality (df : DataFrame) : list (Z * DataFrame) :=
  (λ k, (k, filter (λ r, Quality r = k) df)) <$> sorted (unique (Quality <$> df)).

Module InterviewSuccess.
Record t := {
  interview_rate_by_quality : list (Z * float);
  recruiter_interview_rate : float;
  no_recruiter_interview_rate : float
}.
End InterviewSuccess.

Definition analyze_interview_success (df : DataFrame) : InterviewSuccess.t :=
  let interview_rate_by_quality :=
    (λ g, (g.1, times100 (mean_bool (is_Y <$> (Interviews <$> g.2)))))
      <$> groupby_Quality df in
  let recruiter_interview_rate :=
    times100 (mean_bool
      (is_Y <$> (Interviews <$> filter (λ r, Recruiter r = "Y") df))) in
  let no_recruiter_interview_rate :=
    times100 (mean_bool
      (is_Y <$> (Interviews <$> filter (λ r, Recruiter r = "N") df))) in
  {| InterviewSuccess.interview_rate_by_quality := interview_rate_by_quality;
     InterviewSuccess.recruiter_interview_rate := recruiter_interview_rate;
     InterviewSuccess.no_recruiter_interview_rate := no_recruiter_interview_rate |}.

(** ** Closure rate by quality (shared by the chart and the console analysis) *)

(** [a / b * 100] on Python ints. *)
Definition pct (a b : nat) : result float :=
  x ← truediv a b; mret (times100 x).

(** The loop [for quality in sorted(df['Quality'].unique())] of
    [analyze_closed_positions] and [plot_closed_positions_distribution]:
    one entry (quality, closed, total, rate) per non-empty bucket. *)
Fixpoint closure_rate_loop (df : DataFrame) (qs : list Z)
  : result (list (Z * nat * nat * float)) :=
  match qs with
  | [] => mret []
  | quality :: qs' =>
      let quality_df := filter (λ r, Quality r = quality) df in
      let quality_closed := length (filter (λ r, Closed r = "Y") quality_df) in
      let quality_total := length quality_df in
      if decide (0 < quality_total) then
        closure_rate ← pct quality_closed quality_total;
        rest ← closure_rate_loop df qs';
        mret ((quality, quality_closed, quality_total, closure_rate) :: rest)
      else closure_rate_loop df qs'
  end.

Module ClosedDistribution.
Record t := {
  status_counts : gmap string nat;
  quality_closure : list (Z * float)
}.
End ClosedDistribution.

Definition plot_closed_positions_distribution (df : DataFrame)
  : result ClosedDistribution.t :=
  let status_counts := value_counts (Closed <$> df) in
  rows ← closure_rate_loop df (sorted (unique (Quality <$> df)));
  mret {| ClosedDistribution.status_counts := status_counts;
          ClosedDistribution.quality_closure :=
            (λ x, (x.1.1.1, x.2)) <$> rows |}.

(** ** [analyze_closed_positions] *)

Module ClosedPositions.
Record t := {
  closed : nat * float;
  open : nat * float;
  unknown : nat * float;
  closure_rate_by_quality : list (Z * nat * nat * float);
  closed_interview_rate : option float;
  open_interview_rate : option float;
  closed_by_month : MonthSeries
}.
End ClosedPositions.

(** The values the function prints, in the order it computes them; an
    exception raised by a division ends the function. *)
Definition analyze_closed_positions (df : DataFrame) : result ClosedPositions.t :=
  let total_positions := length df in
  let closed_positions := length (filter (λ r, Closed r = "Y") df) in
  let open_positions := length (filter (λ r, Closed r = "N") df) in
  let unknown_positions := length (filter (λ r, Closed r = "I") df) in
  closed_share ← pct closed_positions total_positions;
  open_share ← pct open_positions total_positions;
  unknown_share ← pct unknown_positions total_positions;
  by_quality ← closure_rate_loop df (sorted (unique (Quality <$> df)));
  let closed_df := filter (λ r, Closed r = "Y") df in
  let open_df := filter (λ r, Closed r = "N") df in
  closed_interview_rate ←
    (if decide (0 < length closed_df) then
       x ← pct (length (filter (λ r, Interviews r = "Y") closed_df))
               (length closed_df);
       mret (Some x)
     else mret None);
  open_interview_rate ←
    (if decide (0 < length open_df) then
       x ← pct (length (filter (λ r, Interviews r = "Y") open_df))
               (length open_df);
       mret (Some x)
     else mret None);
  let closed_by_month :=
    if decide (0 < length closed_df)
    then filter (λ dc, 0 < dc.2) (resample_M_size closed_df)
    else [] in
  mret {| ClosedPositions.closed := (closed_positions, closed_share);
          ClosedPositions.open := (open_positions, open_share);
          ClosedPositions.unknown := (unknown_positions, unknown_share);
          ClosedPositions.closure_rate_by_quality := by_quality;
          ClosedPositions.closed_interview_rate := closed_interview_rate;
          ClosedPositions.open_interview_rate := open_interview_rate;
          ClosedPositions.closed_by_month := closed_by_month |}.

(** ** [generate_html_dashboard] *)

(** [d[k] = v] on an insertion-ordered dict. *)
Fixpoint dict_set (d : list (Z * float)) (k : Z) (v : float) : list (Z * float) :=
  match d with
  | [] => [(k, v)]
  | (k', v') :: d' =>
      if decide (k' = k) then (k, v) :: d' else (k', v') :: dict_set d' k v
  end.

(** [(a / b * 100) if b > 0 else 0]. *)
Definition pct_or_0 (a b : nat) : result float :=
  if decide (0 < b) then pct a b else mret (fl 0).

(** The loop filling [interview_rates_by_quality]. *)
Fixpoint interview_rates_loop (df : DataFrame) (qs : list Z)
    (interview_rates_by_quality : list (Z * float)) : result (list (Z * float)) :=
  match qs with
  | [] => mret interview_rates_by_quality
  | quality :: qs' =>
      let quality_df := filter (λ r, Quality r = quality) df in
      let quality_interviews :=
        length (filter (λ r, Interviews r = "Y") quality_df) in
      let quality_total := length quality_df in
      if decide (0 < quality_total) then
        rate ← pct quality_interviews quality_total;
        interview_rates_loop df qs' (dict_set interview_rates_by_quality quality rate)
      else interview_rates_loop df qs' interview_rates_by_quality
  end.

Module Dashboard.
Record t := {
  total_apps : nat;
  unique_companies : nat;
  interviews : nat;
  interview_rate : float;
  recruiters : nat;
  avg_quality : float;
  closed_positions : nat;
  open_positions : nat;
  unknown_positions : nat;
  closed_pct : float;
  open_pct : float;
  unknown_pct : float;
  interview_rates_by_quality : list (Z * float);
  recruiter_interview_rate : float;
  no_recruiter_interview_rate : float;
  remote_positions : nat;
  local_positions : nat
}.
End Dashboard.

(** The metrics substituted into the HTML page. *)
Definition generate_html_dashboard (df : DataFrame) : result Dashboard.t :=
  let total_apps := length df in
  let unique_companies := length (unique_str (Company <$> df)) in
  let interviews := length (filter (λ r, Interviews r = "Y") df) in
  interview_rate ← pct_or_0 interviews total_apps;
  let recruiters := length (filter (λ r, Recruiter r = "Y") df) in
  let avg_quality := mean_int (Quality <$> df) in
  let closed_positions := length (filter (λ r, Closed r = "Y") df) in
  let open_positions := length (filter (λ r, Closed r = "N") df) in
  let unknown_positions := length (filter (λ r, Closed r = "I") df) in
  closed_pct ← pct_or_0 closed_positions total_apps;
  open_pct ← pct_or_0 open_positions total_apps;
  unknown_pct ← pct_or_0 unknown_positions total_apps;
  interview_rates_by_quality ←
    interview_rates_loop df (sorted (unique (Quality <$> df))) [];
  let recruiter_df := filter (λ r, Recruiter r = "Y") df in
  let no_recruiter_df := filter (λ r, Recruiter r = "N") df in
  recruiter_interview_rate ←
    pct_or_0 (length (filter (λ r, Interviews r = "Y") recruiter_df))
             (length recruiter_df);
  no_recruiter_interview_rate ←
    pct_or_0 (length (filter (λ r, Interviews r = "Y") no_recruiter_df))
             (length no_recruiter_df);
  mret {| Dashboard.total_apps := total_apps;
          Dashboard.unique_companies := unique_companies;
          Dashboard.interviews := interviews;
          Dashboard.interview_rate := interview_rate;
          Dashboard.recruiters := recruiters;
          Dashboard.avg_quality := avg_quality;
          Dashboard.closed_positions := closed_positions;
          Dashboard.open_positions := open_positions;
          Dashboard.unknown_positions := unknown_positions;
          Dashboard.closed_pct := closed_pct;
          Dashboard.open_pct := open_pct;
          Dashboard.unknown_pct := unknown_pct;
          Dashboard.interview_rates_by_quality := interview_rates_by_quality;
          Dashboard.recruiter_interview_rate := recruiter_interview_rate;
          Dashboard.no_recruiter_interview_rate := no_recruiter_interview_rate;
          Dashboard.remote_positions :=
            length (filter (λ r, Local_Remote r = "Remote") df);
          Dashboard.local_positions :=
            length (filter (λ r, Local_Remote r = "Local") df) |}.

(** ** [plot_high_quality_interview_table] *)

(** Chronological order on timestamps. *)
Definition ts_le (a b : Timestamp) : Prop :=
  (year a < year b ∨
   (year a = year b ∧
    (month a < month b ∨ (month a = month b ∧ day a ≤ day b))))%Z.

#[global] Instance ts_le_dec a b : Decision (ts_le a b).
Proof. unfold ts_le. apply _. Defined.

Definition digit (n : Z) : Ascii.ascii := Ascii.ascii_of_nat (48 + Z.to_nat (n `mod` 10)).

(** The last [width] decimal digits of [n], zero padded. *)
Fixpoint zero_padded (width : nat) (n : Z) : string :=
  match width with
  | O => ""
  | S w => zero_padded w (n `div` 10) +:+ String (digit n) ""
  end.

(** [t.strftime('%m/%d/%Y')]. *)
Definition strftime (t : Timestamp) : string :=
  zero_padded 2 (month t) +:+ "/" +:+ zero_padded 2 (day t) +:+ "/"
    +:+ zero_padded 4 (year t).

Definition set_Date {D E : Type} (f : D → E) (r : Row D) : Row E :=
  {| Date := f (Date r); Company := Company r; Title := Title r;
     Quality := Quality r; Interviews := Interviews r; Recruiter := Recruiter r;
     Local_Remote := Local_Remote r; Closed := Closed r |}.

(** A cell of the [Date] column: a timestamp, or its display text. *)
Inductive DateCell := CellTs (t : Timestamp) | CellStr (s : string).

(** A row of [table_data]. *)
Abbreviation TableRow := (DateCell * string * string * Z * string * string)%type.

(** [df[display_cols].values], row by row. *)
Definition display_cols {D : Type} (cell : D → DateCell) (r : Row D) : TableRow :=
  (cell (Date r), Company r, Title r, Quality r, Local_Remote r, Closed r).

(** [(df['Quality'].isin([1, 2])) & (df['Interviews'] == 'Y')]. *)
Definition high_quality_mask {D : Type} (r : Row D) : Prop :=
  Quality r ∈ [1; 2]%Z ∧ Interviews r = "Y".

#[global] Instance high_quality_mask_dec {D} (r : Row D) : Decision (high_quality_mask r).
Proof. unfold high_quality_mask. apply _. Defined.

(** [df['Interviews'] == 'Y'] and [df['Quality'] == q] as masks. *)
Definition interviews_mask {D : Type} (r : Row D) : Prop := Interviews r = "Y".
Definition quality_mask (q : Z) {D : Type} (r : Row D) : Prop := Quality r = q.

#[global] Instance interviews_mask_dec {D} (r : Row D) : Decision (interviews_mask r).
Proof. unfold interviews_mask. apply _. Defined.
#[global] Instance quality_mask_dec q {D} (r : Row D) : Decision (quality_mask q r).
Proof. unfold quality_mask. apply _. Defined.

(** [df.sort_values('Date')] on a frame of timestamps.  pandas leaves the
    order of rows with equal dates to its sorting routine; here they keep
    their given order. *)
Definition sort_values_Date (df : DataFrame) : DataFrame :=
  merge_sort (λ a b, ts_le (Date a) (Date b)) df.

(** Python's order on strings. *)
Definition str_le (a b : string) : Prop := String.leb a b = true.

#[global] Instance str_le_dec a b : Decision (str_le a b).
Proof. unfold str_le. apply _. Defined.

(** [df.sort_values('Date')] once the column holds strings. *)
Definition sort_values_Date_str (df : list (Row string)) : list (Row string) :=
  merge_sort (λ a b, str_le (Date a) (Date b)) df.

(** The cell text handed to the table renderer. *)
Definition plot_high_quality_interview_table (df : DataFrame) : list TableRow :=
  let high_quality_interviews := filter high_quality_mask df in
  let high_quality_interviews := sort_values_Date high_quality_interviews in
  let high_quality_interviews := set_Date strftime <$> high_quality_interviews in
  let table_data := display_cols CellStr <$> high_quality_interviews in
  table_data.

(** ** The functions as programs over a store of frame objects

    A frame object is reached through a reference; indexing with a mask,
    [copy] and [sort_values] create new objects, and a column assignment
    changes the object it is applied to.  The two functions that assign to a
    frame are written out operation by operation; the others only read
    [df]. *)

Inductive Frame :=
  | FrameTs (rows : list (Row Timestamp))
  | FrameStr (rows : list (Row string)).

Abbreviation Store := (gmap nat Frame).

Module Heap.

(** A computation on the store; an exception leaves the store as it was
    when it was raised. *)
Definition M (A : Type) : Type := Store → result A * Store.

Definition ret {A} (a : A) : M A := λ s, (Ok a, s).
Definition raise {A} (e : exn) : M A := λ s, (Raise e, s).
Definition bind {A B} (m : M A) (f : A → M B) : M B := λ s,
  match m s with
  | (Ok a, s') => f a s'
  | (Raise e, s') => (Raise e, s')
  end.
Definition lift {A} (v : result A) : M A := λ s, (v, s).

#[global] Instance M_ret : MRet M := @ret.
#[global] Instance M_bind : MBind M := λ A B f m, bind m f.

(** The object behind a reference (a Python reference always leads to an
    object; the [KeyError] case is not reached by the functions below). *)
Definition deref (r : nat) : M Frame := λ s,
  match s !! r with
  | Some f => (Ok f, s)
  | None => (Raise KeyError, s)
  end.

(** The rows of the loaded frame, whose [Date] column holds timestamps. *)
Definition rows_of (r : nat) : M DataFrame :=
  f ← deref r;
  match f with
  | FrameTs rows => ret rows
  | FrameStr _ => raise AttributeError
  end.

(** A new object. *)
Definition alloc (f : Frame) : M nat := λ s,
  let r := fresh (dom s) in (Ok r, <[r := f]> s).

(** [df[mask]]: a new frame holding the selected rows. *)
Definition getitem_mask (P : ∀ D, Row D → Prop) `{∀ D r, Decision (P D r)}
    (r : nat) : M nat :=
  f ← deref r;
  alloc match f with
        | FrameTs rows => FrameTs (filter (P _) rows)
        | FrameStr rows => FrameStr (filter (P _) rows)
        end.

(** [df.copy()]. *)
Definition copy (r : nat) : M nat :=
  f ← deref r; alloc f.

(** [df.sort_values('Date')]: a new, sorted frame. *)
Definition sort_values (r : nat) : M nat :=
  f ← deref r;
  alloc match f with
        | FrameTs rows => FrameTs (sort_values_Date rows)
        | FrameStr rows => FrameStr (sort_values_Date_str rows)
        end.

(** Overwrite the object behind a reference. *)
Definition update (r : nat) (f : Frame) : M unit := λ s, (Ok tt, <[r := f]> s).

(** [df['Date'] = df['Date'].dt.strftime('%m/%d/%Y')]: the column of the
    object itself is replaced. *)
Definition assign_Date_strftime (r : nat) : M unit :=
  f ← deref r;
  match f with
  | FrameTs rows => update r (FrameStr (set_Date strftime <$> rows))
  | FrameStr _ => raise AttributeError
  end.

(** [df[display_cols].values]. *)
Definition values (r : nat) : M (list TableRow) :=
  f ← deref r;
  match f with
  | FrameTs rows => ret (display_cols CellTs <$> rows)
  | FrameStr rows => ret (display_cols CellStr <$> rows)
  end.

Definition plot_high_quality_interview_table (df : nat) : M (list TableRow) :=
  masked ← getitem_mask (@high_quality_mask) df;
  high_quality_interviews ← copy masked;
  high_quality_interviews ← sort_values high_quality_interviews;
  assign_Date_strftime high_quality_interviews;;
  table_data ← values high_quality_interviews;
  ret table_data.

(** [df.resample('M', on='Date').size()] on a frame object. *)
Definition resample (r : nat) : M MonthSeries :=
  rows ← rows_of r; ret (resample_M_size rows).

Definition plot_high_quality_interviews_per_month (df : nat)
  : M HighQualityPerMonth.t :=
  masked ← getitem_mask (@interviews_mask) df;
  interviews_df ← copy masked;
  q1_interviews ← getitem_mask (@quality_mask 1) interviews_df;
  q2_interviews ← getitem_mask (@quality_mask 2) interviews_df;
  monthly_q1 ← resample q1_interviews;
  monthly_q2 ← resample q2_interviews;
  ret (same_index monthly_q1 monthly_q2).

(** The functions that only read [df]. *)
Definition reading {A} (f : DataFrame → A) (df : nat) : M A :=
  rows ← rows_of df; ret (f rows).
Definition reading_result {A} (f : DataFrame → result A) (df : nat) : M A :=
  rows ← rows_of df; lift (f rows).

Definition generate_basic_metrics := reading generate_basic_metrics.
Definition plot_applications_over_time := reading plot_applications_over_time.
Definition plot_quality_distribution := reading plot_quality_distribution.
Definition plot_interviews_per_month := reading plot_interviews_per_month.
Definition plot_closed_positions_distribution :=
  reading_result plot_closed_positions_distribution.
Definition analyze_interview_success := reading analyze_interview_success.
Definition analyze_closed_positions := reading_result analyze_closed_positions.
Definition generate_html_dashboard := reading_result generate_html_dashboard.

End Heap.

(** ** [main] *)

(** Everything one run computes, in the order of the calls of [main]. *)
Record Metrics := {
  basic_metrics : BasicMetrics;
  applications_over_time : MonthSeries;
  quality_distribution : list Z;
  interviews_per_month : MonthSeries;
  high_quality_interviews_per_month : HighQualityPerMonth.t;
  high_quality_interview_table : list TableRow;
  closed_positions_distribution : ClosedDistribution.t;
  interview_success : InterviewSuccess.t;
  closed_positions : ClosedPositions.t;
  html_dashboard : Dashboard.t
}.

(** [main], from the frame [load_data] returned. *)
Definition main (df : nat) : Heap.M Metrics :=
  basic ← Heap.generate_basic_metrics df;
  apps ← Heap.plot_applications_over_time df;
  quality ← Heap.plot_quality_distribution df;
  per_month ← Heap.plot_interviews_per_month df;
  hq_per_month ← Heap.plot_high_quality_interviews_per_month df;
  hq_table ← Heap.plot_high_quality_interview_table df;
  closed_dist ← Heap.plot_closed_positions_distribution df;
  success ← Heap.analyze_interview_success df;
  closed ← Heap.analyze_closed_positions df;
  dashboard ← Heap.generate_html_dashboard df;
  mret {| basic_metrics := basic;
          applications_over_time := apps;
          quality_distribution := quality;
          interviews_per_month := per_month;
          high_quality_interviews_per_month := hq_per_month;
          high_quality_interview_table := hq_table;
          closed_positions_distribution := closed_dist;
          interview_success := success;
          closed_positions := closed;
          html_dashboard := dashboard |}.

(** The value of a run as a function of the rows of [df]. *)
Definition metrics_of (df : DataFrame) : result Metrics :=
  closed_dist ← plot_closed_positions_distribution df;
  closed ← analyze_closed_positions df;
  dashboard ← generate_html_dashboard df;
  mret {| basic_metrics := generate_basic_metrics df;
          applications_over_time := plot_applications_over_time df;
          quality_distribution := plot_quality_distribution df;
          interviews_per_month := plot_interviews_per_month df;
          high_quality_interviews_per_month :=
            plot_high_quality_interviews_per_month df;
          high_quality_interview_table := plot_high_quality_interview_table df;
          closed_positions_distribution := closed_dist;
          interview_success := analyze_interview_success df;
          closed_positions := closed;
          html_dashboard := dashboard |}.

(** ** Labels and colours of the charts *)

(** The row colour of the table: light green for quality 1, light yellow
    otherwise. *)
Definition row_color (quality : Z) : string :=
  if decide (quality = 1%Z) then "#E8F5E9" else "#FFF9C4".

(** The colour of each row of [table_data], from its Quality column. *)
Definition table_row_colors (table_data : list TableRow) : list string :=
  (λ row, row_color row.1.1.2) <$> table_data.

(** One [plt.text(x, y, s)] call: a label at bar [x], height [y]. *)
Record TextLabel := { label_x : nat; label_y : nat; label_text : string }.


Definition newline : string := String (Ascii.ascii_of_nat 10) "".

(** The label of one stacked bar of [plot_high_quality_interviews_per_month]. *)
Definition stacked_bar_label (i q1_val q2_val : nat) : option TextLabel :=
  let total := (q1_val + q2_val)%nat in
  if decide (0 < total)%nat then
    if decide (0 < q1_val ∧ 0 < q2_val)%nat then
      Some {| label_x := i; label_y := total;
              label_text := "Q1:" +:+ pretty q1_val +:+ newline
                              +:+ "Q2:" +:+ pretty q2_val |}
    else if decide (0 < q1_val)%nat then
      Some {| label_x := i; label_y := q1_val; label_text := pretty q1_val |}
    else if decide (0 < q2_val)%nat then
      Some {| label_x := i; label_y := q2_val; label_text := pretty q2_val |}
    else None
  else None.

(** The loop [for i in range(len(all_months))] placing the labels; reading
    [values[i]] past the end of a series is an [IndexError], here [None]. *)
Fixpoint stacked_bar_labels_loop (q1_values q2_values : list nat)
    (positions : list nat) : option (list TextLabel) :=
  match positions with
  | [] => Some []
  | i :: positions' =>
      q1_val ← q1_values !! i;
      q2_val ← q2_values !! i;
      rest ← stacked_bar_labels_loop q1_values q2_values positions';
      Some (match stacked_bar_label i q1_val q2_val with
            | Some label => label :: rest
            | None => rest
            end)
  end.

Definition stacked_bar_labels (res : HighQualityPerMonth.t) : option (list TextLabel) :=
  stacked_bar_labels_loop (HighQualityPerMonth.monthly_q1 res).*2
                          (HighQualityPerMonth.monthly_q2 res).*2
                          (seq 0 (length (HighQualityPerMonth.all_months res))).

(** ** Derived quantities used in the statements *)

(** The console's rate for one quality group. *)
Definition bucket_rate (df : DataFrame) (q : Z) : float :=
  times100 (mean_bool (is_Y <$> (Interviews <$> filter (λ r, Quality r = q) df))).

(** The value of a guarded percentage. *)
Definition pct_or_0_value (a b : nat) : float :=
  match b with O => fl 0 | S _ => fl (of_int a / of_int b * 100) end.

(** What the specification asks of an interview-rate mapping for [df]: keys
    strictly ascending, exactly the quality values that occur, and each value
    a number [p] in [0,100] with [p * (records of that quality) = 100 *
    (interviewed records of that quality)]. *)
Definition interview_rate_mapping (df : DataFrame) (rates : list (Z * float)) : Prop :=
  StronglySorted Z.lt rates.*1
  ∧ (∀ q, q ∈ rates.*1 ↔ ∃ r, r ∈ df ∧ Quality r = q)
  ∧ (∀ q v, (q, v) ∈ rates →
       ∃ p, v = fl p
         ∧ (p * of_int (length (filter (λ r, Quality r = q) df))
            == 100 * of_int (length (filter (λ r, Quality r = q ∧ Interviews r = "Y") df)))%Q
         ∧ (0 <= p)%Q ∧ (p <= 100)%Q).

(** A row for the examples. *)
Definition sample_row (y m d q : Z) (interviewed recruiter closed : string)
  : Row Timestamp :=
  {| Date := {| year := y; month := m; day := d |};
     Company := "Acme"; Title := "Engineer"; Quality := q;
     Interviews := interviewed; Recruiter := recruiter;
     Local_Remote := "Remote"; Closed := closed |}.

(** The sum of the quality column, row by row. *)
Fixpoint total_quality (df : DataFrame) : Z :=
  match df with
  | [] => 0
  | r :: df' => Quality r + total_quality df'
  end.

(** The months spanned by a set of rows: between the months of two of them. *)
Definition in_span (sub : DataFrame) (m : Z) : Prop :=
  ∃ r1 r2, r1 ∈ sub ∧ r2 ∈ sub
         ∧ (month_ord (Date r1) ≤ m ≤ month_ord (Date r2))%Z.

(** The number of rows dated in month [m]. *)
Definition rows_in_month (sub : DataFrame) (m : Z) : nat :=
  length (filter (λ r, month_ord (Date r) = m) sub).

(** What the specification asks of the monthly counts of a subset [sub]:
    with [lo] and [hi] the earliest and latest month present in [sub], the
    months of the series ascend strictly and are exactly those from [lo] to
    [hi], each count is the number of rows of that month, and a subset within
    one month gives one bucket. *)
Definition monthly_counts (sub : DataFrame) (series : MonthSeries) : Prop :=
  ∃ lo hi : Z,
    lo ∈ (month_ord ∘ Date) <$> sub
    ∧ hi ∈ (month_ord ∘ Date) <$> sub
    ∧ (∀ m, m ∈ (month_ord ∘ Date) <$> sub → lo ≤ m ≤ hi)%Z
    ∧ StronglySorted Z.lt series.*1
    ∧ (∀ k, k ∈ series.*1 ↔ lo ≤ k ≤ hi)%Z
    ∧ (∀ k c, (k, c) ∈ series → c = rows_in_month sub k)
    ∧ (∀ m, (∀ r, r ∈ sub → month_ord (Date r) = m) → series = [(m, length sub)]).

(** The claim of an aligned, gap-free axis: both series are indexed by
    [all_months], no month is repeated, and every month between the months of
    two high-quality interviews is on the axis. *)
Definition aligned_gap_free (df : DataFrame) (res : HighQualityPerMonth.t) : Prop :=
  (HighQualityPerMonth.monthly_q1 res).*1 = HighQualityPerMonth.all_months res
  ∧ (HighQualityPerMonth.monthly_q2 res).*1 = HighQualityPerMonth.all_months res
  ∧ NoDup (HighQualityPerMonth.all_months res)
  ∧ ∀ r1 r2 m,
      r1 ∈ filter high_quality_mask df → r2 ∈ filter high_quality_mask df →
      (month_ord (Date r1) ≤ m ≤ month_ord (Date r2))%Z →
      m ∈ HighQualityPerMonth.all_months res.

(** [s'] is [s] with one new object [f], reached through [r]. *)
Definition extends_with (s : Store) (f : Frame) (r : nat) (s' : Store) : Prop :=
  s !! r = None ∧ s' !! r = Some f
  ∧ ∀ r0 f0, s !! r0 = Some f0 → s' !! r0 = Some f0.

(** An operation on a frame reference leaves the frame behind it as it was. *)
Definition leaves_frame_unchanged {A} (op : nat → Heap.M A) : Prop :=
  ∀ (s : Store) (df : nat) (rows : DataFrame),
    s !! df = Some (FrameTs rows) → (op df s).2 !! df = Some (FrameTs rows).

(** The number of rows whose key [f] is [k]. *)
Definition count_by {A} (f : A → Z) (l : list A) (k : Z) : nat :=
  length (filter (λ x, f x = k) l).

(** The percentage [a / b * 100] as a number. *)
Definition pct_value (a b : nat) : float := fl (of_int a / of_int b * 100).

(** One row of the closure-rate loop for quality [q]. *)
Definition closure_row (df : DataFrame) (q : Z) : Z * nat * nat * float :=
  let quality_df := filter (λ r, Quality r = q) df in
  let quality_closed := length (filter (λ r, Closed r = "Y") quality_df) in
  (q, quality_closed, length quality_df, pct_value quality_closed (length quality_df)).

(** What the closure-rate loop reports for [df]: one row (quality, closed,
    total, rate) per quality present, in ascending order of quality, with
    the counts of that quality, a rate [p] in [0,100] with [p * total = 100 *
    closed]; the totals add up to the number of rows of [df] and the closed
    counts to the number of closed positions. *)
Definition closure_rate_rows (df : DataFrame) (rows : list (Z * nat * nat * float)) : Prop :=
  StronglySorted Z.lt ((λ x, x.1.1.1) <$> rows)
  ∧ (∀ q, q ∈ (λ x, x.1.1.1) <$> rows ↔ ∃ r, r ∈ df ∧ Quality r = q)
  ∧ (∀ q c t v, (q, c, t, v) ∈ rows →
       t = length (filter (λ r, Quality r = q) df)
       ∧ (0 < t)%nat
       ∧ c = length (filter (λ r, Quality r = q ∧ Closed r = "Y") df)
       ∧ ∃ p, v = fl p ∧ (p * of_int t == 100 * of_int c)%Q
            ∧ (0 <= p)%Q ∧ (p <= 100)%Q)
  ∧ sum_list ((λ x, x.1.2) <$> rows) = length df
  ∧ sum_list ((λ x, x.1.1.2) <$> rows) = length (filter (λ r, Closed r = "Y") df).

(** The values [analyze_closed_positions] prints for a non-empty [df]. *)
Definition closure_analysis (df : DataFrame) : ClosedPositions.t :=
  let closed_df := filter (λ r, Closed r = "Y") df in
  let open_df := filter (λ r, Closed r = "N") df in
  let unknown_df := filter (λ r, Closed r = "I") df in
  {| ClosedPositions.closed :=
       (length closed_df, pct_value (length closed_df) (length df));
     ClosedPositions.open :=
       (length open_df, pct_value (length open_df) (length df));
     ClosedPositions.unknown :=
       (length unknown_df, pct_value (length unknown_df) (length df));
     ClosedPositions.closure_rate_by_quality :=
       closure_row df <$> sorted (unique (Quality <$> df));
     ClosedPositions.closed_interview_rate :=
       if decide (0 < length closed_df)%nat
       then Some (pct_value (length (filter (λ r, Interviews r = "Y") closed_df))
                            (length closed_df))
       else None;
     ClosedPositions.open_interview_rate :=
       if decide (0 < length open_df)%nat
       then Some (pct_value (length (filter (λ r, Interviews r = "Y") open_df))
                            (length open_df))
       else None;
     ClosedPositions.closed_by_month :=
       filter (λ dc, 0 < dc.2)%nat (resample_M_size closed_df) |}.

(** Three rows for the examples. *)
Definition rows3 : DataFrame :=
  [sample_row 2024 1 15 1 "Y" "N" "Y"; sample_row 2024 2 3 2 "N" "Y" "N";
   sample_row 2024 4 9 1 "Y" "Y" "I"].

(** The table row shown for a record. *)
Definition table_row_of (r : Row Timestamp) : TableRow :=
  (CellStr (strftime (Date r)), Company r, Title r, Quality r, Local_Remote r, Closed r).

(** * Properties *)

(** ** Arithmetic of percentages *)

Lemma of_int_pos (b : nat) : (0 < b)%nat → (0 < of_int b)%Q.
Proof.
  intros Hb. unfold of_int. change 0%Q with (inject_Z 0).
  rewrite <- Zlt_Qlt. lia.
Qed.

Lemma of_int_le (a b : nat) : (a ≤ b)%nat → (of_int a <= of_int b)%Q.
Proof. intros H. unfold of_int. rewrite <- Zle_Qle. lia. Qed.

Lemma pct_value_bounds (a b : nat) :
  (a ≤ b)%nat → (0 < b)%nat →
  (0 <= of_int a / of_int b * 100)%Q ∧ (of_int a / of_int b * 100 <= 100)%Q.
Proof.
  intros Hab Hb.
  pose proof (of_int_pos b Hb) as Hpos.
  pose proof (of_int_le a b Hab) as Hle.
  pose proof (of_int_le 0 a ltac:(lia)) as H0. change (of_int 0) with 0%Q in H0.
  split.
  - apply Qmult_le_0_compat; [|done].
    apply Qle_shift_div_l; [done|]. by rewrite Qmult_0_l.
  - apply Qle_trans with (1 * 100)%Q; [|done].
    apply Qmult_le_compat_r; [|done].
    apply Qle_shift_div_r; [done|]. by rewrite Qmult_1_l.
Qed.

Lemma pct_value_char (a b : nat) :
  (0 < b)%nat → (of_int a / of_int b * 100 * of_int b == 100 * of_int a)%Q.
Proof.
  intros Hb. pose proof (of_int_pos b Hb) as Hpos.
  field. intros E. rewrite E in Hpos. by apply Qlt_irrefl in Hpos.
Qed.

(** ** [unique] and [sorted] *)

Section lists.

Lemma elem_of_unique (l : list Z) x : x ∈ unique l ↔ x ∈ l.
Proof.
  induction l as [|y l IH]; simpl; [done|].
  rewrite !elem_of_cons, list_elem_of_filter, IH.
  destruct (decide (x = y)); tauto.
Qed.

Lemma NoDup_unique (l : list Z) : NoDup (unique l).
Proof.
  induction l as [|y l IH]; simpl; constructor.
  - rewrite list_elem_of_filter. by intros [Hne _].
  - by apply NoDup_filter.
Qed.

Lemma sorted_Permutation l : sorted l ≡ₚ l.
Proof. apply merge_sort_Permutation. Qed.

Lemma elem_of_sorted l x : x ∈ sorted l ↔ x ∈ l.
Proof. by rewrite sorted_Permutation. Qed.

Lemma NoDup_sorted l : NoDup l → NoDup (sorted l).
Proof. by rewrite sorted_Permutation. Qed.

Lemma sorted_ascending l : StronglySorted Z.le (sorted l).
Proof. apply StronglySorted_merge_sort; apply _. Qed.

(** A duplicate-free list in ascending order is strictly ascending. *)
Lemma StronglySorted_le_lt (l : list Z) :
  NoDup l → StronglySorted Z.le l → StronglySorted Z.lt l.
Proof.
  induction 2 as [|x l Hs IH Hall]; [constructor|].
  apply NoDup_cons in H as [Hx Hl]. constructor; [auto|].
  rewrite Forall_forall in *. intros y Hy.
  specialize (Hall y Hy). assert (x ≠ y) by (intros ->; done). lia.
Qed.

Lemma sorted_unique_strict l : StronglySorted Z.lt (sorted (unique l)).
Proof.
  apply StronglySorted_le_lt; [|apply sorted_ascending].
  apply NoDup_sorted, NoDup_unique.
Qed.

End lists.

(** ** Interview rate by quality: the dashboard loop and the console groupby *)

Section rates.
Implicit Types (df : DataFrame) (q : Z).

Lemma dict_set_fresh (d : list (Z * float)) k v :
  k ∉ d.*1 → dict_set d k v = d ++ [(k, v)].
Proof.
  induction d as [|[k' v'] d IH]; simpl; [done|].
  rewrite not_elem_of_cons. intros [Hne Hd].
  rewrite decide_False by done. by rewrite IH.
Qed.

Lemma bucket_nonempty df q :
  q ∈ Quality <$> df → (0 < length (filter (λ r, Quality r = q) df))%nat.
Proof.
  rewrite list_elem_of_fmap. intros (r & -> & Hr).
  assert (r ∈ filter (λ r', Quality r' = Quality r) df) as Hin
    by by apply list_elem_of_filter.
  destruct (filter _ df); [by apply elem_of_nil in Hin | simpl; lia].
Qed.

Lemma count_is_Y (l : DataFrame) :
  length (filter (λ b, b = true) (is_Y <$> (Interviews <$> l)))
  = length (filter (λ r, Interviews r = "Y") l).
Proof.
  induction l as [|r l IH]; [done|]. cbn [fmap list_fmap].
  rewrite !filter_cons.
  pose proof (bool_decide_eq_true (Interviews r = "Y")) as Hb.
  fold (is_Y (Interviews r)) in Hb.
  repeat case_decide; simpl; rewrite ?IH; tauto.
Qed.

(** On a non-empty bucket the guarded division of the dashboard and the
    mean of the console analysis are the same number. *)
Lemma pct_mean (l : DataFrame) :
  (0 < length l)%nat →
  pct (length (filter (λ r, Interviews r = "Y") l)) (length l)
  = Ok (times100 (mean_bool (is_Y <$> (Interviews <$> l)))).
Proof.
  intros Hl. destruct l as [|r l]; [simpl in Hl; lia|].
  unfold pct, truediv, mean_bool. cbn [length fmap list_fmap].
  cbn [mbind result_bind mret result_ret times100].
  rewrite <- count_is_Y. cbn [fmap list_fmap].
  by rewrite !length_fmap.
Qed.

Lemma interview_rates_loop_spec df qs acc :
  NoDup qs →
  (∀ q, q ∈ qs → q ∈ Quality <$> df) →
  (∀ q, q ∈ qs → q ∉ acc.*1) →
  interview_rates_loop df qs acc
  = Ok (acc ++ ((λ q, (q, bucket_rate df q)) <$> qs)).
Proof.
  revert acc. induction qs as [|q qs IH]; intros acc Hnd Hin Hacc.
  - simpl. by rewrite app_nil_r.
  - apply NoDup_cons in Hnd as [Hq Hnd]. simpl.
    rewrite decide_True by (apply bucket_nonempty, Hin; left).
    rewrite pct_mean by (apply bucket_nonempty, Hin; left).
    cbn [mbind result_bind].
    rewrite dict_set_fresh by (apply Hacc; left).
    rewrite IH; [by rewrite <- app_assoc|done|..].
    + intros q' Hq'. apply Hin. by right.
    + intros q' Hq'. rewrite fmap_app, elem_of_app. cbn.
      rewrite list_elem_of_singleton. intros [?| ->]; [|done].
      by apply (Hacc q'); [right|].
Qed.

Lemma groupby_rates_eq df :
  InterviewSuccess.interview_rate_by_quality (analyze_interview_success df)
  = (λ q, (q, bucket_rate df q)) <$> sorted (unique (Quality <$> df)).
Proof.
  unfold analyze_interview_success, groupby_Quality.
  cbn [InterviewSuccess.interview_rate_by_quality].
  by rewrite <- list_fmap_compose.
Qed.

Lemma interview_rates_loop_groupby df :
  interview_rates_loop df (sorted (unique (Quality <$> df))) []
  = Ok (InterviewSuccess.interview_rate_by_quality (analyze_interview_success df)).
Proof.
  rewrite interview_rates_loop_spec.
  - by rewrite groupby_rates_eq.
  - apply NoDup_sorted, NoDup_unique.
  - intros q. by rewrite elem_of_sorted, elem_of_unique.
  - intros q _. simpl. apply not_elem_of_nil.
Qed.

Lemma pct_or_0_ok a b : pct_or_0 a b = Ok (pct_or_0_value a b).
Proof. by destruct b. Qed.

End rates.

(** The dashboard never raises: every division in it is guarded. *)
Lemma generate_html_dashboard_ok df :
  ∃ d, generate_html_dashboard df = Ok d
    ∧ Dashboard.interview_rates_by_quality d
      = InterviewSuccess.interview_rate_by_quality (analyze_interview_success df)
    ∧ Dashboard.interview_rate d
      = pct_or_0_value (length (filter (λ r, Interviews r = "Y") df)) (length df)
    ∧ Dashboard.closed_pct d
      = pct_or_0_value (length (filter (λ r, Closed r = "Y") df)) (length df)
    ∧ Dashboard.open_pct d
      = pct_or_0_value (length (filter (λ r, Closed r = "N") df)) (length df)
    ∧ Dashboard.unknown_pct d
      = pct_or_0_value (length (filter (λ r, Closed r = "I") df)) (length df)
    ∧ Dashboard.recruiter_interview_rate d
      = pct_or_0_value
          (length (filter (λ r, Interviews r = "Y") (filter (λ r, Recruiter r = "Y") df)))
          (length (filter (λ r, Recruiter r = "Y") df))
    ∧ Dashboard.no_recruiter_interview_rate d
      = pct_or_0_value
          (length (filter (λ r, Interviews r = "Y") (filter (λ r, Recruiter r = "N") df)))
          (length (filter (λ r, Recruiter r = "N") df)).
Proof.
  unfold generate_html_dashboard.
  rewrite !pct_or_0_ok, interview_rates_loop_groupby.
  cbn [mbind result_bind mret result_ret].
  eexists. split; [reflexivity|]. cbn. repeat split.
Qed.

(** ** Claims about the interview rate by quality *)

Lemma bucket_rate_value df q :
  q ∈ Quality <$> df →
  bucket_rate df q
  = fl (of_int (length (filter (λ r, Interviews r = "Y") (filter (λ r, Quality r = q) df)))
        / of_int (length (filter (λ r, Quality r = q) df)) * 100).
Proof.
  intros Hq. pose proof (bucket_nonempty df q Hq) as Hpos.
  pose proof (pct_mean _ Hpos) as Hpct. fold (bucket_rate df q) in Hpct.
  unfold pct, truediv in Hpct.
  destruct (length (filter (λ r, Quality r = q) df)) eqn:E; [lia|].
  cbn in Hpct. by injection Hpct as <-.
Qed.

Lemma groupby_rates_mapping df :
  interview_rate_mapping df
    (InterviewSuccess.interview_rate_by_quality (analyze_interview_success df)).
Proof.
  rewrite groupby_rates_eq.
  assert (∀ l : list Z, ((λ q, (q, bucket_rate df q)) <$> l).*1 = l) as Hkeys.
  { intros l. rewrite <- list_fmap_compose. apply list_fmap_id. }
  split; [|split].
  - rewrite Hkeys. apply sorted_unique_strict.
  - intros q. rewrite Hkeys, elem_of_sorted, elem_of_unique, list_elem_of_fmap.
    split; intros (r & ? & ?); exists r; done.
  - intros q v. rewrite list_elem_of_fmap. intros (q' & [= <- ->] & Hq).
    rewrite elem_of_sorted, elem_of_unique in Hq.
    pose proof (bucket_nonempty df q Hq) as Hpos.
    rewrite bucket_rate_value by done. eexists. split; [reflexivity|].
    assert (filter (λ r, Quality r = q ∧ Interviews r = "Y") df
            = filter (λ r, Interviews r = "Y") (filter (λ r, Quality r = q) df))
      as -> by (rewrite list_filter_filter; apply list_filter_iff; tauto).
    split; [by apply pct_value_char|].
    apply pct_value_bounds; [apply length_filter | done].
Qed.

(** C4.  For every record set, the interview rate by quality, as computed by
    the dashboard and as computed by the console analysis, is a mapping whose
    keys are exactly the quality values present in the records, in strictly
    ascending order; every value is a number (never NaN) in [0,100] and is the
    percentage of the records of that quality that were interviewed.  A quality
    value with no records is therefore absent.  The dashboard computation
    never raises. *)
Theorem interview_rate_by_quality_mapping (df : DataFrame) :
  (∃ d, generate_html_dashboard df = Ok d
      ∧ interview_rate_mapping df (Dashboard.interview_rates_by_quality d))
  ∧ interview_rate_mapping df
      (InterviewSuccess.interview_rate_by_quality (analyze_interview_success df)).
Proof.
  split; [|apply groupby_rates_mapping].
  destruct (generate_html_dashboard_ok df) as (d & Hd & Hrates & _).
  exists d. split; [done|]. rewrite Hrates. apply groupby_rates_mapping.
Qed.

(** C10.  For every record set, the dashboard loop over the sorted distinct
    qualities (count of interviews divided by bucket size, times 100, guarded
    to non-empty buckets) returns, without raising, the same
    quality-to-percentage mapping as the console groupby (mean of
    [Interviews == 'Y'] times 100). *)
Theorem dashboard_rates_eq_console_rates (df : DataFrame) :
  ∃ d, generate_html_dashboard df = Ok d
     ∧ Dashboard.interview_rates_by_quality d
       = InterviewSuccess.interview_rate_by_quality (analyze_interview_success df).
Proof.
  destruct (generate_html_dashboard_ok df) as (d & Hd & Hrates & _). eauto.
Qed.

(** The three-record scenario: two quality-1 applications, both interviewed,
    and one quality-2 application without interview give the rates 100 and 0. *)
Example interview_rates_three_records :
  ∃ d p1 p2,
    generate_html_dashboard
      [sample_row 2024 1 15 1 "Y" "N" "Y"; sample_row 2024 2 3 2 "N" "N" "N";
       sample_row 2024 2 9 1 "Y" "N" "N"] = Ok d
    ∧ Dashboard.interview_rates_by_quality d = [(1%Z, fl p1); (2%Z, fl p2)]
    ∧ (p1 == 100)%Q ∧ (p2 == 0)%Q
    ∧ Dashboard.total_apps d = 3%nat
    ∧ Dashboard.closed_positions d = 1%nat
    ∧ Dashboard.open_positions d = 2%nat.
Proof.
  do 3 eexists. split; [by vm_compute|]. cbn.
  split; [reflexivity|]. repeat split.
Qed.

(** ** Claims about [generate_basic_metrics] *)

(** C5.  When every record's closure status is one of "Y", "N", "I", the
    closed, open and unknown counts of the basic metrics add up to the total
    number of records (for the empty record set too). *)
Theorem closure_counts_sum_to_total (df : DataFrame) :
  Forall (λ r, Closed r = "Y" ∨ Closed r = "N" ∨ Closed r = "I") df →
  let m := generate_basic_metrics df in
  (Closed_Positions m + Open_Positions m + Unknown_Status_Positions m
   = Total_Applications m)%nat.
Proof.
  cbn. induction 1 as [|r df Hr _ IH]; [done|].
  rewrite !filter_cons. cbn [length]. rewrite <- IH.
  destruct Hr as [E|[E|E]]; rewrite E; repeat case_decide; try done; simpl; lia.
Qed.

Lemma closure_counts_sum_to_total_witness :
  let m := generate_basic_metrics
             [sample_row 2024 1 15 1 "Y" "N" "Y"; sample_row 2024 2 3 2 "N" "N" "N";
              sample_row 2024 2 9 1 "Y" "Y" "I"] in
  (Closed_Positions m + Open_Positions m + Unknown_Status_Positions m
   = Total_Applications m)%nat.
Proof.
  apply closure_counts_sum_to_total.
  repeat (apply List.Forall_cons; [cbn; auto|]). apply List.Forall_nil.
Defined.

Lemma total_quality_foldr df : foldr Z.add 0%Z (Quality <$> df) = total_quality df.
Proof. induction df as [|r df IH]; [done|]. cbn. by rewrite <- IH. Qed.

(** C7.  For a non-empty record set the average quality score of the basic
    metrics is a number [p] with [p * (number of records) = sum of the quality
    field]: the unweighted arithmetic mean.  Any record set with the same
    quality column, whatever its other fields hold, has the same score. *)
Theorem average_quality_is_unweighted_mean (df : DataFrame) :
  df ≠ [] →
  ∃ p, Average_Quality_Score (generate_basic_metrics df) = fl p
     ∧ (p * of_int (length df) == inject_Z (total_quality df))%Q
     ∧ ∀ df' : DataFrame,
         Quality <$> df' = Quality <$> df →
         Average_Quality_Score (generate_basic_metrics df') = fl p.
Proof.
  intros Hne. destruct df as [|r df]; [done|].
  eexists. split; [reflexivity|]. split.
  - rewrite length_fmap, total_quality_foldr.
    assert (0 < of_int (length (r :: df)))%Q as Hpos
      by (apply of_int_pos; simpl; lia).
    field. intros E. rewrite E in Hpos. by apply Qlt_irrefl in Hpos.
  - intros df' Hq. cbn [generate_basic_metrics Average_Quality_Score].
    by rewrite Hq.
Qed.

Lemma average_quality_is_unweighted_mean_witness :
  ∃ p, Average_Quality_Score
         (generate_basic_metrics
            [sample_row 2024 1 15 1 "Y" "N" "Y"; sample_row 2024 2 3 2 "N" "N" "N"])
       = fl p
     ∧ (p * of_int 2 == inject_Z 3)%Q
     ∧ ∀ df' : DataFrame,
         Quality <$> df' = [1; 2]%Z →
         Average_Quality_Score (generate_basic_metrics df') = fl p.
Proof.
  apply (average_quality_is_unweighted_mean
           [sample_row 2024 1 15 1 "Y" "N" "Y"; sample_row 2024 2 3 2 "N" "N" "N"]).
  discriminate.
Defined.

(** ** Zero denominators *)

(** C1.  On the empty record set [analyze_closed_positions] divides by the
    total of zero and raises [ZeroDivisionError]; the dashboard, which guards
    the same three divisions, reports 0 for them and an empty rate mapping. *)
Theorem analyze_closed_positions_empty_raises :
  analyze_closed_positions [] = Raise ZeroDivisionError
  ∧ ∃ d, generate_html_dashboard [] = Ok d
       ∧ Dashboard.closed_pct d = fl 0
       ∧ Dashboard.open_pct d = fl 0
       ∧ Dashboard.unknown_pct d = fl 0
       ∧ Dashboard.interview_rates_by_quality d = [].
Proof.
  split; [reflexivity|].
  eexists. split; [by vm_compute|]. cbn. repeat split.
Qed.

(** C3.  On a record set without recruiter rows the console analysis reports
    the interview rate with recruiter as NaN (the mean of an empty series),
    while the dashboard, which guards the division, reports 0. *)
Theorem recruiter_rate_of_empty_subset_is_nan :
  let df := [sample_row 2024 1 15 1 "Y" "N" "N"] in
  InterviewSuccess.recruiter_interview_rate (analyze_interview_success df) = nan
  ∧ ∃ d, generate_html_dashboard df = Ok d
       ∧ Dashboard.recruiter_interview_rate d = fl 0.
Proof.
  split; [reflexivity|].
  eexists. split; [by vm_compute|]. reflexivity.
Qed.

(** ** Monthly series *)

Section resample.
Local Open Scope Z_scope.
Implicit Types (sub : DataFrame) (m k : Z).

Lemma seqZ_strictly_ascending m n : StronglySorted Z.lt (seqZ m n).
Proof.
  unfold seqZ. generalize (Z.to_nat n) as len. generalize 0%nat as s.
  intros s len. revert s.
  induction len as [|len IH]; intros s; cbn; constructor; [apply IH|].
  rewrite Forall_fmap, Forall_seq. intros j Hj. cbn. lia.
Qed.

Lemma foldr_min_spec m (ms : list Z) :
  foldr Z.min m ms ∈ m :: ms ∧ ∀ x, x ∈ m :: ms → foldr Z.min m ms ≤ x.
Proof.
  induction ms as [|y ms [IHin IHle]]; cbn.
  - split; [left|]. intros x ->%list_elem_of_singleton. lia.
  - split.
    + destruct (Z.min_spec y (foldr Z.min m ms)) as [[_ ->]|[_ ->]].
      * right; left.
      * apply elem_of_cons in IHin as [E|?]; [rewrite E; left | by do 2 right].
    + intros x Hx. assert (x = y ∨ x ∈ m :: ms) as [->|Hx'].
      { rewrite !elem_of_cons in *. tauto. }
      * lia.
      * specialize (IHle x Hx'). lia.
Qed.

Lemma foldr_max_spec m (ms : list Z) :
  foldr Z.max m ms ∈ m :: ms ∧ ∀ x, x ∈ m :: ms → x ≤ foldr Z.max m ms.
Proof.
  induction ms as [|y ms [IHin IHle]]; cbn.
  - split; [left|]. intros x ->%list_elem_of_singleton. lia.
  - split.
    + destruct (Z.max_spec y (foldr Z.max m ms)) as [[_ ->]|[_ ->]].
      * apply elem_of_cons in IHin as [E|?]; [rewrite E; left | by do 2 right].
      * right; left.
    + intros x Hx. assert (x = y ∨ x ∈ m :: ms) as [->|Hx'].
      { rewrite !elem_of_cons in *. tauto. }
      * lia.
      * specialize (IHle x Hx'). lia.
Qed.

(** The earliest and the latest month of a non-empty frame, and the series
    written over them. *)
Lemma resample_M_size_range sub :
  sub ≠ [] →
  ∃ lo hi,
    lo ∈ (month_ord ∘ Date) <$> sub
    ∧ hi ∈ (month_ord ∘ Date) <$> sub
    ∧ (∀ m, m ∈ (month_ord ∘ Date) <$> sub → lo ≤ m ≤ hi)
    ∧ resample_M_size sub
      = (λ k, (k, rows_in_month sub k)) <$> seqZ lo (hi - lo + 1).
Proof.
  intros Hne. destruct sub as [|r sub]; [done|].
  unfold resample_M_size. cbn [fmap list_fmap].
  set (m := (month_ord ∘ Date) r). set (ms := list_fmap _ _ (month_ord ∘ Date) sub).
  destruct (foldr_min_spec m ms) as [Hlo Hlo'].
  destruct (foldr_max_spec m ms) as [Hhi Hhi'].
  exists (foldr Z.min m ms), (foldr Z.max m ms).
  repeat split; auto.
Qed.

Lemma resample_M_size_keys sub lo hi :
  resample_M_size sub = (λ k, (k, rows_in_month sub k)) <$> seqZ lo (hi - lo + 1) →
  (resample_M_size sub).*1 = seqZ lo (hi - lo + 1).
Proof.
  intros ->. rewrite <- list_fmap_compose. apply list_fmap_id.
Qed.

Lemma resample_M_size_nil : resample_M_size [] = [].
Proof. done. Qed.

Lemma elem_of_resample_M_size_keys sub k :
  k ∈ (resample_M_size sub).*1 ↔ in_span sub k.
Proof.
  destruct (decide (sub = [])) as [->|Hne].
  { rewrite resample_M_size_nil. split.
    - by intros ?%elem_of_nil.
    - intros (r1 & _ & Hr1 & _). by apply elem_of_nil in Hr1. }
  destruct (resample_M_size_range sub Hne) as (lo & hi & Hlo & Hhi & Hbd & Heq).
  rewrite (resample_M_size_keys _ _ _ Heq), elem_of_seqZ.
  apply list_elem_of_fmap in Hlo as (r1 & Hlo & Hr1).
  apply list_elem_of_fmap in Hhi as (r2 & Hhi & Hr2).
  cbn in Hlo, Hhi. split.
  - intros Hk. exists r1, r2. repeat split; auto; lia.
  - intros (a & b & Ha & Hb & Hk).
    assert (lo ≤ month_ord (Date a) ≤ hi)
      by (apply Hbd, list_elem_of_fmap; eauto).
    assert (lo ≤ month_ord (Date b) ≤ hi)
      by (apply Hbd, list_elem_of_fmap; eauto).
    lia.
Qed.

Lemma resample_M_size_keys_ascending sub :
  StronglySorted Z.lt (resample_M_size sub).*1.
Proof.
  destruct (decide (sub = [])) as [->|Hne]; [constructor|].
  destruct (resample_M_size_range sub Hne) as (lo & hi & _ & _ & _ & Heq).
  rewrite (resample_M_size_keys _ _ _ Heq). apply seqZ_strictly_ascending.
Qed.

Lemma elem_of_resample_M_size sub k c :
  (k, c) ∈ resample_M_size sub → c = rows_in_month sub k.
Proof.
  destruct (decide (sub = [])) as [->|Hne]; [by intros ?%elem_of_nil|].
  destruct (resample_M_size_range sub Hne) as (lo & hi & _ & _ & _ & ->).
  rewrite list_elem_of_fmap. by intros (k' & [= -> ->] & _).
Qed.

Lemma filter_all {A} (P : A → Prop) `{∀ x, Decision (P x)} (l : list A) :
  (∀ x, x ∈ l → P x) → filter P l = l.
Proof.
  induction l as [|x l IH]; intros Hall; [done|].
  rewrite filter_cons_True by (apply Hall; left).
  f_equal. apply IH. intros y Hy. apply Hall. by right.
Qed.

Lemma resample_M_size_one_month sub m :
  sub ≠ [] →
  (∀ r, r ∈ sub → month_ord (Date r) = m) →
  resample_M_size sub = [(m, length sub)].
Proof.
  intros Hne Hall.
  destruct (resample_M_size_range sub Hne) as (lo & hi & Hlo & Hhi & _ & ->).
  apply list_elem_of_fmap in Hlo as (r1 & -> & Hr1).
  apply list_elem_of_fmap in Hhi as (r2 & -> & Hr2).
  cbn. rewrite (Hall r1), (Hall r2) by done.
  replace (m - m + 1) with 1 by lia.
  rewrite seqZ_cons, seqZ_nil by lia. cbn. do 2 f_equal.
  unfold rows_in_month. f_equal. by apply filter_all.
Qed.

End resample.

(** C6.  For every non-empty filtered subset, the resampled series is
    [monthly_counts] of it: the months of the series ascend strictly, they are
    exactly the calendar months from the earliest to the latest month present
    in the subset, every count is the number of the subset's rows dated in
    that month, and when all rows share one month the series is the single
    bucket of that month with the size of the subset. *)
Theorem monthly_counts_of_subset (df : DataFrame)
    (P : Row Timestamp → Prop) `{∀ r, Decision (P r)} :
  filter P df ≠ [] →
  monthly_counts (filter P df) (resample_M_size (filter P df)).
Proof.
  intros Hne. set (sub := filter P df) in *.
  destruct (resample_M_size_range sub Hne) as (lo & hi & Hlo & Hhi & Hbd & Heq).
  exists lo, hi. split; [done|]. split; [done|]. split; [done|].
  split; [apply resample_M_size_keys_ascending|].
  split; [|split].
  - intros k. rewrite (resample_M_size_keys _ _ _ Heq), elem_of_seqZ. lia.
  - apply elem_of_resample_M_size.
  - intros m Hm. by apply resample_M_size_one_month.
Qed.

Lemma monthly_counts_of_subset_witness :
  let df := [sample_row 2024 1 15 1 "Y" "N" "Y"; sample_row 2024 2 3 2 "N" "N" "N";
             sample_row 2024 3 9 1 "Y" "Y" "I"] in
  monthly_counts (filter (λ r, Interviews r = "Y") df) (plot_interviews_per_month df).
Proof.
  intros df. apply (monthly_counts_of_subset df (λ r, Interviews r = "Y")).
  vm_compute. discriminate.
Defined.

Section split.
Implicit Types (sub : DataFrame) (s : MonthSeries) (idx : list Z).

Lemma reindex_keys s idx : (reindex s idx).*1 = idx.
Proof. unfold reindex. rewrite <- list_fmap_compose. apply list_fmap_id. Qed.

Lemma rows_in_month_in_span sub m : (0 < rows_in_month sub m)%nat → in_span sub m.
Proof.
  unfold rows_in_month. intros Hpos.
  destruct (filter _ sub) as [|r l] eqn:E; [simpl in Hpos; lia|].
  assert (r ∈ filter (λ r, month_ord (Date r) = m) sub) as Hr
    by (rewrite E; left).
  apply list_elem_of_filter in Hr as [Hm Hr].
  exists r, r. repeat split; auto; lia.
Qed.

(** Reading a resampled series at any month gives the number of rows of
    that month: the bin if there is one, and otherwise the fill value 0,
    which is also the number of rows. *)
Lemma resample_lookup_default sub m :
  default O ((list_to_map (resample_M_size sub) : gmap Z nat) !! m)
  = rows_in_month sub m.
Proof.
  destruct (_ !! m) as [c|] eqn:E; cbn.
  - apply elem_of_list_to_map_2 in E. by apply elem_of_resample_M_size.
  - apply not_elem_of_list_to_map_2 in E.
    rewrite elem_of_resample_M_size_keys in E.
    destruct (rows_in_month sub m) eqn:Hc; [done|].
    destruct E. apply rows_in_month_in_span. lia.
Qed.

Lemma elem_of_reindex_resample sub idx m c :
  (m, c) ∈ reindex (resample_M_size sub) idx → c = rows_in_month sub m.
Proof.
  unfold reindex. rewrite list_elem_of_fmap.
  intros (m' & [= -> ->] & _). apply resample_lookup_default.
Qed.

Lemma same_index_axis (s1 s2 : MonthSeries) :
  let res := same_index s1 s2 in
  StronglySorted Z.lt (HighQualityPerMonth.all_months res)
  ∧ ∀ m, m ∈ HighQualityPerMonth.all_months res ↔ m ∈ s1.*1 ∨ m ∈ s2.*1.
Proof.
  cbn. split.
  - apply StronglySorted_le_lt; [|apply sorted_ascending].
    apply NoDup_sorted, NoDup_elements.
  - intros m. rewrite elem_of_sorted, elem_of_elements, elem_of_union,
      !elem_of_list_to_set. done.
Qed.

End split.

(** C2, as stated, fails: with one quality-1 interview in January 2024 and
    one quality-2 interview in April 2024 the shared axis is January, April;
    February and March, which lie between the earliest and the latest month,
    are missing. *)
Lemma high_quality_axis_has_gaps :
  let df := [sample_row 2024 1 15 1 "Y" "N" "N"; sample_row 2024 4 2 2 "Y" "N" "N"] in
  ¬ aligned_gap_free df (plot_high_quality_interviews_per_month df).
Proof.
  intros df (_ & _ & _ & Hgap).
  specialize (Hgap (sample_row 2024 1 15 1 "Y" "N" "N")
                   (sample_row 2024 4 2 2 "Y" "N" "N") 24289%Z).
  assert (24289%Z ∈ [24288; 24291]%Z) as Hin.
  { apply Hgap.
    - apply list_elem_of_filter. split; [split; [cbn; left | done] | left].
    - apply list_elem_of_filter.
      split; [split; [cbn; right; left | done] | right; left].
    - vm_compute. split; discriminate. }
  rewrite !elem_of_cons, elem_of_nil in Hin. lia.
Qed.

(** C2, amended.  For every record set the two series of
    [plot_high_quality_interviews_per_month] have the same month axis, strictly
    ascending; a month is on the axis exactly when it lies within the month
    range of the quality-1 interviews or within the month range of the
    quality-2 interviews; and each series holds, at every month of the axis,
    the number of that tier's interviews dated in that month (0 where the
    tier has none). *)
Theorem high_quality_split_shares_axis (df : DataFrame) :
  let res := plot_high_quality_interviews_per_month df in
  let q1 := filter (λ r, Quality r = 1%Z) (filter (λ r, Interviews r = "Y") df) in
  let q2 := filter (λ r, Quality r = 2%Z) (filter (λ r, Interviews r = "Y") df) in
  (HighQualityPerMonth.monthly_q1 res).*1 = HighQualityPerMonth.all_months res
  ∧ (HighQualityPerMonth.monthly_q2 res).*1 = HighQualityPerMonth.all_months res
  ∧ StronglySorted Z.lt (HighQualityPerMonth.all_months res)
  ∧ (∀ m, m ∈ HighQualityPerMonth.all_months res ↔ in_span q1 m ∨ in_span q2 m)
  ∧ (∀ m c, (m, c) ∈ HighQualityPerMonth.monthly_q1 res → c = rows_in_month q1 m)
  ∧ (∀ m c, (m, c) ∈ HighQualityPerMonth.monthly_q2 res → c = rows_in_month q2 m).
Proof.
  intros res q1 q2.
  destruct (same_index_axis (resample_M_size q1) (resample_M_size q2))
    as [Hsorted Hmem].
  split; [apply reindex_keys|]. split; [apply reindex_keys|].
  split; [exact Hsorted|]. split; [|split].
  - intros m. rewrite <- !elem_of_resample_M_size_keys. apply Hmem.
  - intros m c. apply elem_of_reindex_resample.
  - intros m c. apply elem_of_reindex_resample.
Qed.

(** ** The store *)

Section heap.
Implicit Types (s : Store) (r df : nat) (f : Frame).

Lemma bind_Ok {A B} (m : Heap.M A) (k : A → Heap.M B) s a s1 :
  m s = (Ok a, s1) → (m ≫= k) s = k a s1.
Proof. intros E. unfold mbind, Heap.M_bind, Heap.bind. by rewrite E. Qed.

Lemma bind_Raise {A B} (m : Heap.M A) (k : A → Heap.M B) s e s1 :
  m s = (Raise e, s1) → (m ≫= k) s = (Raise e, s1).
Proof. intros E. unfold mbind, Heap.M_bind, Heap.bind. by rewrite E. Qed.

Lemma deref_Some s r f : s !! r = Some f → Heap.deref r s = (Ok f, s).
Proof. intros E. unfold Heap.deref. by rewrite E. Qed.

Lemma rows_of_Some s r rows :
  s !! r = Some (FrameTs rows) → Heap.rows_of r s = (Ok rows, s).
Proof.
  intros E. unfold Heap.rows_of. by rewrite (bind_Ok _ _ _ _ _ (deref_Some _ _ _ E)).
Qed.

Lemma extends_with_new s f r s' : extends_with s f r s' → s' !! r = Some f.
Proof. by intros (_ & Hnew & _). Qed.

Lemma extends_with_old s f r s' r0 f0 :
  extends_with s f r s' → s !! r0 = Some f0 → s' !! r0 = Some f0.
Proof. intros (_ & _ & Hold). apply Hold. Qed.

Lemma extends_with_ne s f r s' r0 f0 :
  extends_with s f r s' → s !! r0 = Some f0 → r ≠ r0.
Proof. intros (Hnone & _) Hr0 ->. congruence. Qed.

(** A new object gets a reference no existing object has. *)
Lemma alloc_fresh s f :
  ∃ r s', Heap.alloc f s = (Ok r, s') ∧ extends_with s f r s'.
Proof.
  exists (fresh (dom s)), (<[fresh (dom s) := f]> s).
  assert (s !! fresh (dom s) = None) as Hnone
    by apply not_elem_of_dom, is_fresh.
  split; [done|]. split; [done|]. split; [apply lookup_insert_eq|].
  intros r0 f0 Hr0. rewrite lookup_insert_ne; [done|]. intros E.
  rewrite E in Hnone. congruence.
Qed.

Lemma getitem_mask_Some (P : ∀ D, Row D → Prop) `{∀ D x, Decision (P D x)} s r f :
  s !! r = Some f →
  ∃ r' s', Heap.getitem_mask P r s = (Ok r', s')
         ∧ extends_with s (match f with
                           | FrameTs rows => FrameTs (filter (P _) rows)
                           | FrameStr rows => FrameStr (filter (P _) rows)
                           end) r' s'.
Proof.
  intros E. unfold Heap.getitem_mask.
  rewrite (bind_Ok _ _ _ _ _ (deref_Some _ _ _ E)). apply alloc_fresh.
Qed.

Lemma copy_Some s r f :
  s !! r = Some f →
  ∃ r' s', Heap.copy r s = (Ok r', s') ∧ extends_with s f r' s'.
Proof.
  intros E. unfold Heap.copy.
  rewrite (bind_Ok _ _ _ _ _ (deref_Some _ _ _ E)). apply alloc_fresh.
Qed.

Lemma sort_values_Some s r rows :
  s !! r = Some (FrameTs rows) →
  ∃ r' s', Heap.sort_values r s = (Ok r', s')
         ∧ extends_with s (FrameTs (sort_values_Date rows)) r' s'.
Proof.
  intros E. unfold Heap.sort_values.
  rewrite (bind_Ok _ _ _ _ _ (deref_Some _ _ _ E)). apply alloc_fresh.
Qed.

Lemma assign_Date_strftime_Some s r rows :
  s !! r = Some (FrameTs rows) →
  Heap.assign_Date_strftime r s
  = (Ok (), <[r := FrameStr (set_Date strftime <$> rows)]> s).
Proof.
  intros E. unfold Heap.assign_Date_strftime.
  by rewrite (bind_Ok _ _ _ _ _ (deref_Some _ _ _ E)).
Qed.

Lemma values_Some_str s r rows :
  s !! r = Some (FrameStr rows) →
  Heap.values r s = (Ok (display_cols CellStr <$> rows), s).
Proof.
  intros E. unfold Heap.values.
  by rewrite (bind_Ok _ _ _ _ _ (deref_Some _ _ _ E)).
Qed.

Lemma resample_Some s r rows :
  s !! r = Some (FrameTs rows) →
  Heap.resample r s = (Ok (resample_M_size rows), s).
Proof.
  intros E. unfold Heap.resample.
  by rewrite (bind_Ok _ _ _ _ _ (rows_of_Some _ _ _ E)).
Qed.

Lemma reading_Some {A} (g : DataFrame → A) s r rows :
  s !! r = Some (FrameTs rows) → Heap.reading g r s = (Ok (g rows), s).
Proof.
  intros E. unfold Heap.reading.
  by rewrite (bind_Ok _ _ _ _ _ (rows_of_Some _ _ _ E)).
Qed.

Lemma reading_result_Some {A} (g : DataFrame → result A) s r rows :
  s !! r = Some (FrameTs rows) → Heap.reading_result g r s = (g rows, s).
Proof.
  intros E. unfold Heap.reading_result.
  by rewrite (bind_Ok _ _ _ _ _ (rows_of_Some _ _ _ E)).
Qed.

(** The table function works on objects of its own: it returns the table
    computed from the rows of [df] and leaves [df] as it was. *)
Lemma plot_high_quality_interview_table_run s df rows :
  s !! df = Some (FrameTs rows) →
  ∃ s', Heap.plot_high_quality_interview_table df s
        = (Ok (plot_high_quality_interview_table rows), s')
      ∧ s' !! df = Some (FrameTs rows).
Proof.
  intros Hdf. unfold Heap.plot_high_quality_interview_table.
  destruct (getitem_mask_Some (@high_quality_mask) s df _ Hdf)
    as (r1 & s1 & E1 & X1).
  rewrite (bind_Ok _ _ _ _ _ E1).
  destruct (copy_Some s1 r1 _ (extends_with_new _ _ _ _ X1)) as (r2 & s2 & E2 & X2).
  rewrite (bind_Ok _ _ _ _ _ E2).
  destruct (sort_values_Some s2 r2 _ (extends_with_new _ _ _ _ X2)) as (r3 & s3 & E3 & X3).
  rewrite (bind_Ok _ _ _ _ _ E3).
  rewrite (bind_Ok _ _ _ _ _
             (assign_Date_strftime_Some s3 r3 _ (extends_with_new _ _ _ _ X3))).
  rewrite (bind_Ok _ _ _ _ _ (values_Some_str _ r3 _ (lookup_insert_eq _ _ _))).
  eexists. split; [reflexivity|].
  assert (s2 !! df = Some (FrameTs rows)) as Hdf2
    by (repeat (eapply extends_with_old; [done|]); done).
  rewrite lookup_insert_ne by exact (extends_with_ne _ _ _ _ _ _ X3 Hdf2).
  by eapply extends_with_old.
Qed.

(** The per-month split filters copies of [df] and reads them. *)
Lemma plot_high_quality_interviews_per_month_run s df rows :
  s !! df = Some (FrameTs rows) →
  ∃ s', Heap.plot_high_quality_interviews_per_month df s
        = (Ok (plot_high_quality_interviews_per_month rows), s')
      ∧ s' !! df = Some (FrameTs rows).
Proof.
  intros Hdf. unfold Heap.plot_high_quality_interviews_per_month.
  destruct (getitem_mask_Some (@interviews_mask) s df _ Hdf)
    as (r1 & s1 & E1 & X1).
  rewrite (bind_Ok _ _ _ _ _ E1).
  destruct (copy_Some s1 r1 _ (extends_with_new _ _ _ _ X1)) as (r2 & s2 & E2 & X2).
  rewrite (bind_Ok _ _ _ _ _ E2).
  destruct (getitem_mask_Some (@quality_mask 1) s2 r2 _ (extends_with_new _ _ _ _ X2))
    as (r3 & s3 & E3 & X3).
  rewrite (bind_Ok _ _ _ _ _ E3).
  assert (s3 !! r2 = Some (FrameTs (filter interviews_mask rows))) as Hr2
    by (eapply extends_with_old, extends_with_new; done).
  destruct (getitem_mask_Some (@quality_mask 2) s3 r2 _ Hr2)
    as (r4 & s4 & E4 & X4).
  rewrite (bind_Ok _ _ _ _ _ E4).
  rewrite (bind_Ok _ _ _ _ _
             (resample_Some s4 r3 _ (extends_with_old _ _ _ _ _ _ X4 (extends_with_new _ _ _ _ X3)))).
  rewrite (bind_Ok _ _ _ _ _ (resample_Some s4 r4 _ (extends_with_new _ _ _ _ X4))).
  eexists. split; [reflexivity|].
  repeat (eapply extends_with_old; [done|]); done.
Qed.

End heap.

(** ** Runs of [main] *)

Section runs.
Implicit Types (s : Store) (df : nat) (rows : DataFrame).

Lemma main_run s df rows :
  s !! df = Some (FrameTs rows) →
  ∃ s', main df s = (metrics_of rows, s') ∧ s' !! df = Some (FrameTs rows).
Proof.
  intros Hdf. unfold main.
  rewrite (bind_Ok _ _ _ _ _ (reading_Some generate_basic_metrics _ _ _ Hdf)).
  rewrite (bind_Ok _ _ _ _ _ (reading_Some plot_applications_over_time _ _ _ Hdf)).
  rewrite (bind_Ok _ _ _ _ _ (reading_Some plot_quality_distribution _ _ _ Hdf)).
  rewrite (bind_Ok _ _ _ _ _ (reading_Some plot_interviews_per_month _ _ _ Hdf)).
  destruct (plot_high_quality_interviews_per_month_run s df rows Hdf)
    as (s1 & E1 & Hdf1).
  rewrite (bind_Ok _ _ _ _ _ E1).
  destruct (plot_high_quality_interview_table_run s1 df rows Hdf1)
    as (s2 & E2 & Hdf2).
  rewrite (bind_Ok _ _ _ _ _ E2).
  exists s2. split; [|done]. unfold metrics_of.
  pose proof (reading_result_Some plot_closed_positions_distribution _ _ _ Hdf2)
    as E3.
  destruct (plot_closed_positions_distribution rows) as [closed_dist|e];
    [rewrite (bind_Ok _ _ _ _ _ E3) | by rewrite (bind_Raise _ _ _ _ _ E3)].
  rewrite (bind_Ok _ _ _ _ _ (reading_Some analyze_interview_success _ _ _ Hdf2)).
  pose proof (reading_result_Some analyze_closed_positions _ _ _ Hdf2) as E4.
  destruct (analyze_closed_positions rows) as [closed|e];
    [rewrite (bind_Ok _ _ _ _ _ E4) | by rewrite (bind_Raise _ _ _ _ _ E4)].
  pose proof (reading_result_Some generate_html_dashboard _ _ _ Hdf2) as E5.
  destruct (generate_html_dashboard rows) as [dashboard|e];
    [rewrite (bind_Ok _ _ _ _ _ E5) | by rewrite (bind_Raise _ _ _ _ _ E5)].
  done.
Qed.

Lemma reading_leaves_frame_unchanged {A} (g : DataFrame → A) :
  leaves_frame_unchanged (Heap.reading g).
Proof. intros s df rows Hdf. by rewrite (reading_Some g _ _ _ Hdf). Qed.

Lemma reading_result_leaves_frame_unchanged {A} (g : DataFrame → result A) :
  leaves_frame_unchanged (Heap.reading_result g).
Proof. intros s df rows Hdf. by rewrite (reading_result_Some g _ _ _ Hdf). Qed.

(** Assigning the formatted dates to [df] itself would change it: the
    copy taken by the table function is what keeps [df] intact. *)
Lemma assign_Date_strftime_changes_frame :
  ¬ leaves_frame_unchanged Heap.assign_Date_strftime.
Proof.
  intros H. specialize (H {[ 0%nat := FrameTs [] ]} 0%nat [] eq_refl).
  vm_compute in H. discriminate.
Qed.

End runs.

(** C8.  Every operation of the run, and [main] as a whole, leaves the frame
    behind [df] exactly as it was, whatever else the store holds and whether
    or not the operation raises; this includes the table function, which
    formats the dates of a copy. *)
Theorem record_store_never_mutated :
  leaves_frame_unchanged Heap.generate_basic_metrics
  ∧ leaves_frame_unchanged Heap.plot_applications_over_time
  ∧ leaves_frame_unchanged Heap.plot_quality_distribution
  ∧ leaves_frame_unchanged Heap.plot_interviews_per_month
  ∧ leaves_frame_unchanged Heap.plot_high_quality_interviews_per_month
  ∧ leaves_frame_unchanged Heap.plot_high_quality_interview_table
  ∧ leaves_frame_unchanged Heap.plot_closed_positions_distribution
  ∧ leaves_frame_unchanged Heap.analyze_interview_success
  ∧ leaves_frame_unchanged Heap.analyze_closed_positions
  ∧ leaves_frame_unchanged Heap.generate_html_dashboard
  ∧ leaves_frame_unchanged main.
Proof.
  repeat split;
    try apply reading_leaves_frame_unchanged;
    try apply reading_result_leaves_frame_unchanged;
    intros s df rows Hdf.
  - destruct (plot_high_quality_interviews_per_month_run s df rows Hdf)
      as (s' & -> & Hdf'). done.
  - destruct (plot_high_quality_interview_table_run s df rows Hdf)
      as (s' & -> & Hdf'). done.
  - destruct (main_run s df rows Hdf) as (s' & -> & Hdf'). done.
Qed.

(** C9.  A run on a frame returns the same metrics (or raises the same
    exception) when it is repeated on the store the first run left behind,
    and on any other store in which a reference leads to the same rows. *)
Theorem main_is_deterministic (s : Store) (df : nat) (rows : DataFrame) :
  s !! df = Some (FrameTs rows) →
  (main df (main df s).2).1 = (main df s).1
  ∧ ∀ (s2 : Store) (df2 : nat),
      s2 !! df2 = Some (FrameTs rows) → (main df2 s2).1 = (main df s).1.
Proof.
  intros Hdf. destruct (main_run s df rows Hdf) as (s' & E & Hdf').
  rewrite E. cbn [fst snd]. split.
  - by destruct (main_run s' df rows Hdf') as (s'' & -> & _).
  - intros s2 df2 Hdf2. by destruct (main_run s2 df2 rows Hdf2) as (s'' & -> & _).
Qed.

Lemma main_is_deterministic_witness :
  let rows := [sample_row 2024 1 15 1 "Y" "N" "Y"; sample_row 2024 4 2 2 "Y" "Y" "N"] in
  let s : Store := {[ 0%nat := FrameTs rows ]} in
  (main 0 (main 0 s).2).1 = (main 0 s).1
  ∧ ∀ (s2 : Store) (df2 : nat),
      s2 !! df2 = Some (FrameTs rows) → (main df2 s2).1 = (main 0 s).1.
Proof.
  intros rows s. apply (main_is_deterministic s 0%nat rows). reflexivity.
Defined.

(** * Further properties of the analysis *)

Section counting.
Context {A : Type} (f : A → Z).

Lemma sum_list_indicator (a : Z) (ks : list Z) :
  NoDup ks → a ∈ ks →
  sum_list ((λ k, if decide (a = k) then 1 else 0)%nat <$> ks) = 1%nat.
Proof.
  induction 1 as [|k ks Hk Hnd IH]; [by intros ?%elem_of_nil|].
  intros Ha. cbn. case_decide as E.
  - subst k. f_equal. clear IH Hnd Ha.
    induction ks as [|k' ks IH]; [done|]. cbn.
    apply not_elem_of_cons in Hk as [Hne Hk].
    rewrite decide_False by done. by apply IH.
  - apply elem_of_cons in Ha as [?|Ha]; [done|]. by apply IH.
Qed.

Lemma sum_list_fmap_plus {B} (g h : B → nat) (l : list B) :
  sum_list ((λ x, g x + h x)%nat <$> l)
  = (sum_list (g <$> l) + sum_list (h <$> l))%nat.
Proof. induction l as [|x l IH]; cbn; [done|]. rewrite IH. lia. Qed.

(** Rows sorted into buckets by key are each counted once: over a
    duplicate-free list of keys that covers the rows, the bucket sizes add
    up to the number of rows. *)
Lemma count_by_partition (l : list A) (ks : list Z) :
  NoDup ks → (∀ x, x ∈ l → f x ∈ ks) →
  sum_list (count_by f l <$> ks) = length l.
Proof.
  intros Hnd. induction l as [|x l IH]; intros Hin.
  - rewrite (sum_list_fmap_same 0); [cbn; lia|]. by apply Forall_forall.
  - transitivity
      (sum_list ((λ k, if decide (f x = k) then 1 else 0)%nat <$> ks)
       + sum_list (count_by f l <$> ks))%nat.
    + rewrite <- sum_list_fmap_plus. f_equal. apply list_fmap_ext.
      intros _ k _. unfold count_by. rewrite filter_cons.
      repeat case_decide; cbn; congruence.
    + rewrite sum_list_indicator by (auto; apply Hin; left).
      rewrite IH by (intros y Hy; apply Hin; by right). done.
Qed.

End counting.

Section closure.
Implicit Types (df : DataFrame) (q : Z).

Lemma pct_pos (a b : nat) : (0 < b)%nat → pct a b = Ok (pct_value a b).
Proof. intros Hb. destruct b; [lia|done]. Qed.

Lemma pct_zero (a : nat) : pct a 0 = Raise ZeroDivisionError.
Proof. done. Qed.

(** The guard of the loop skips empty buckets, so the loop never divides
    by zero, whatever keys it is run on. *)
Lemma closure_rate_loop_value df (qs : list Z) :
  closure_rate_loop df qs
  = Ok (closure_row df
          <$> filter (λ q, 0 < length (filter (λ r, Quality r = q) df))%nat qs).
Proof.
  induction qs as [|q qs IH]; [done|]. cbn [closure_rate_loop].
  rewrite filter_cons.
  destruct (decide (0 < length (filter (λ r, Quality r = q) df))%nat) as [Hq|Hq];
    [|exact IH].
  rewrite pct_pos by done. rewrite IH. done.
Qed.

Lemma filter_present_keys df (qs : list Z) :
  (∀ q, q ∈ qs → q ∈ Quality <$> df) →
  filter (λ q, 0 < length (filter (λ r, Quality r = q) df))%nat qs = qs.
Proof. intros Hin. apply filter_all. intros q Hq. by apply bucket_nonempty, Hin. Qed.

Lemma closure_rate_loop_present df :
  closure_rate_loop df (sorted (unique (Quality <$> df)))
  = Ok (closure_row df <$> sorted (unique (Quality <$> df))).
Proof.
  rewrite closure_rate_loop_value, filter_present_keys; [done|].
  intros q. by rewrite elem_of_sorted, elem_of_unique.
Qed.

Lemma filter_filter_comm {A} (P Q : A → Prop)
    `{∀ x, Decision (P x), ∀ x, Decision (Q x)} (l : list A) :
  filter P (filter Q l) = filter Q (filter P l).
Proof. rewrite !list_filter_filter. apply list_filter_iff. tauto. Qed.

Lemma closure_rows_spec df :
  closure_rate_rows df (closure_row df <$> sorted (unique (Quality <$> df))).
Proof.
  set (ks := sorted (unique (Quality <$> df))).
  assert (NoDup ks) as Hnd by apply NoDup_sorted, NoDup_unique.
  assert (∀ q, q ∈ ks ↔ q ∈ Quality <$> df) as Hks
    by (intros q; unfold ks; by rewrite elem_of_sorted, elem_of_unique).
  assert ((λ x, x.1.1.1) <$> (closure_row df <$> ks) = ks) as Hkeys
    by (rewrite <- list_fmap_compose; exact (list_fmap_id ks)).
  unfold closure_rate_rows. rewrite Hkeys, <- !list_fmap_compose.
  split; [|split; [|split; [|split]]].
  - apply sorted_unique_strict.
  - intros q. rewrite Hks, list_elem_of_fmap.
    split; intros (r & ? & ?); exists r; done.
  - intros q c t v. rewrite list_elem_of_fmap.
    intros (q' & [= <- -> -> ->] & Hq%Hks).
    pose proof (bucket_nonempty df q Hq) as Hpos.
    assert (filter (λ r, Quality r = q ∧ Closed r = "Y") df
            = filter (λ r, Closed r = "Y") (filter (λ r, Quality r = q) df))
      as -> by (rewrite list_filter_filter; apply list_filter_iff; tauto).
    repeat split; [done|].
    eexists. split; [reflexivity|].
    split; [by apply pct_value_char|].
    apply pct_value_bounds; [apply length_filter|done].
  - apply (count_by_partition Quality df ks Hnd).
    intros r Hr. apply Hks, list_elem_of_fmap. eauto.
  - rewrite <- (count_by_partition Quality (filter (λ r, Closed r = "Y") df) ks Hnd).
    + apply (f_equal sum_list), list_fmap_ext. intros _ q _. cbn.
      unfold count_by. by rewrite filter_filter_comm.
    + intros r [_ Hr]%list_elem_of_filter. apply Hks, list_elem_of_fmap. eauto.
Qed.

End closure.

Section closed_positions.
Implicit Types (df sub : DataFrame).

Lemma length_pos_nonempty {A} (l : list A) : l ≠ [] → (0 < length l)%nat.
Proof. destruct l; [done|cbn; lia]. Qed.

Lemma analyze_closed_positions_nonempty df :
  df ≠ [] → analyze_closed_positions df = Ok (closure_analysis df).
Proof.
  intros Hne%length_pos_nonempty. unfold analyze_closed_positions, closure_analysis.
  rewrite !(pct_pos _ (length df)) by done.
  rewrite closure_rate_loop_present.
  cbn [mbind result_bind mret result_ret].
  destruct (decide (0 < length (filter (λ r, Closed r = "Y") df))%nat) as [Hc|Hc];
  destruct (decide (0 < length (filter (λ r, Closed r = "N") df))%nat) as [Ho|Ho];
    rewrite ?pct_pos by done; cbn [mbind result_bind mret result_ret];
    try done.
  all: do 2 f_equal;
    destruct (filter (λ r, Closed r = "Y") df); [done | cbn in Hc; lia].
Qed.

Lemma analyze_closed_positions_empty :
  analyze_closed_positions [] = Raise ZeroDivisionError.
Proof. done. Qed.

(** The bins of a resampled series hold every row once. *)
Lemma resample_M_size_sum sub :
  sum_list (resample_M_size sub).*2 = length sub.
Proof.
  destruct (decide (sub = [])) as [->|Hne]; [done|].
  destruct (resample_M_size_range sub Hne) as (lo & hi & _ & _ & Hbd & ->).
  rewrite <- list_fmap_compose.
  apply (count_by_partition (month_ord ∘ Date) sub _ (NoDup_seqZ _ _)).
  intros r Hr. apply elem_of_seqZ.
  assert (lo ≤ (month_ord ∘ Date) r ≤ hi)%Z
    by (apply Hbd, list_elem_of_fmap; eauto).
  lia.
Qed.

Lemma sum_list_filter_pos (s : MonthSeries) :
  sum_list (filter (λ dc, 0 < dc.2)%nat s).*2 = sum_list s.*2.
Proof.
  induction s as [|[m c] s IH]; [done|]. rewrite filter_cons. cbn.
  case_decide; cbn in *; rewrite IH; lia.
Qed.

Lemma keys_ascending_filter (P : Z * nat → Prop) `{∀ x, Decision (P x)}
    (s : MonthSeries) :
  StronglySorted Z.lt s.*1 → StronglySorted Z.lt (filter P s).*1.
Proof.
  induction s as [|x s IH]; [done|]. rewrite fmap_cons.
  intros [Hall Hs]%StronglySorted_cons.
  rewrite filter_cons. case_decide; [|by apply IH]. rewrite fmap_cons.
  apply StronglySorted_cons. split; [|by apply IH].
  rewrite Forall_forall in *. intros k (y & -> & [_ Hy]%list_elem_of_filter)%list_elem_of_fmap.
  apply Hall, list_elem_of_fmap. eauto.
Qed.

Lemma closure_counts_total df :
  Forall (λ r, Closed r = "Y" ∨ Closed r = "N" ∨ Closed r = "I") df →
  (length (filter (λ r, Closed r = "Y") df)
   + length (filter (λ r, Closed r = "N") df)
   + length (filter (λ r, Closed r = "I") df) = length df)%nat.
Proof.
  induction 1 as [|r df Hr _ IH]; [done|].
  rewrite !filter_cons. cbn [length]. rewrite <- IH.
  destruct Hr as [E|[E|E]]; rewrite E; repeat case_decide; try done; simpl; lia.
Qed.

End closed_positions.

(** X1.  [analyze_closed_positions] raises exactly on the empty record set,
    and then it is a [ZeroDivisionError]; on every non-empty record set it
    returns its analysis. *)
Theorem analyze_closed_positions_raises_iff_empty (df : DataFrame) :
  (analyze_closed_positions df = Raise ZeroDivisionError ↔ df = [])
  ∧ ((∃ a, analyze_closed_positions df = Ok a) ↔ df ≠ [])
  ∧ ∀ e, analyze_closed_positions df = Raise e → e = ZeroDivisionError.
Proof.
  destruct (decide (df = [])) as [->|Hne].
  - rewrite analyze_closed_positions_empty. split; [done|]. split.
    + split; [by intros [a ?]|done].
    + by intros e [= <-].
  - rewrite (analyze_closed_positions_nonempty df Hne). split; [done|]. split.
    + split; [done|eauto].
    + by intros e ?.
Qed.

(** X2.  On a non-empty record set whose closure statuses are all "Y", "N" or
    "I", the closed, open and unknown counts printed by
    [analyze_closed_positions] add up to the number of records and their
    three percentages add up to 100 (as exact numbers); none is negative. *)
Theorem closure_shares_sum_to_100 (df : DataFrame) :
  df ≠ [] →
  Forall (λ r, Closed r = "Y" ∨ Closed r = "N" ∨ Closed r = "I") df →
  ∃ a nc no nu pc po pu,
    analyze_closed_positions df = Ok a
    ∧ ClosedPositions.closed a = (nc, fl pc)
    ∧ ClosedPositions.open a = (no, fl po)
    ∧ ClosedPositions.unknown a = (nu, fl pu)
    ∧ (nc + no + nu = length df)%nat
    ∧ (pc + po + pu == 100)%Q
    ∧ (0 <= pc)%Q ∧ (0 <= po)%Q ∧ (0 <= pu)%Q.
Proof.
  intros Hne Hst. rewrite (analyze_closed_positions_nonempty df Hne).
  pose proof (length_pos_nonempty df Hne) as Hpos.
  pose proof (closure_counts_total df Hst) as Hsum.
  do 7 eexists. split; [reflexivity|]. cbn.
  split; [reflexivity|]. split; [reflexivity|]. split; [reflexivity|].
  split; [exact Hsum|]. split.
  - pose proof (of_int_pos _ Hpos) as Hq.
    rewrite <- Hsum at 1 2 3. rewrite <- Hsum in Hq. unfold of_int in *.
    rewrite !Nat2Z.inj_add, !inject_Z_plus in *.
    field. intros E. rewrite E in Hq. by apply Qlt_irrefl in Hq.
  - repeat split; apply pct_value_bounds; auto; apply length_filter.
Qed.

Lemma pct_or_0_value_pos (a b : nat) :
  (0 < b)%nat → pct_or_0_value a b = pct_value a b.
Proof. intros Hb. destruct b; [lia|done]. Qed.

(** X3.  On a non-empty record set the console analysis and the dashboard
    report the same closed, open and unknown counts and percentages. *)
Theorem console_closure_shares_eq_dashboard (df : DataFrame) :
  df ≠ [] →
  ∃ a d,
    analyze_closed_positions df = Ok a
    ∧ generate_html_dashboard df = Ok d
    ∧ ClosedPositions.closed a = (Dashboard.closed_positions d, Dashboard.closed_pct d)
    ∧ ClosedPositions.open a = (Dashboard.open_positions d, Dashboard.open_pct d)
    ∧ ClosedPositions.unknown a
      = (Dashboard.unknown_positions d, Dashboard.unknown_pct d).
Proof.
  intros Hne. pose proof (length_pos_nonempty df Hne) as Hpos.
  destruct (generate_html_dashboard_ok df)
    as (d & Hd & _ & _ & Hc & Ho & Hu & _).
  exists (closure_analysis df), d.
  split; [by apply analyze_closed_positions_nonempty|]. split; [done|].
  rewrite Hc, Ho, Hu, !pct_or_0_value_pos by done.
  unfold generate_html_dashboard in Hd. rewrite !pct_or_0_ok in Hd.
  rewrite interview_rates_loop_groupby in Hd. injection Hd as <-. done.
Qed.

Lemma console_closure_shares_eq_dashboard_witness :
  ∃ a d,
    analyze_closed_positions rows3 = Ok a
    ∧ generate_html_dashboard rows3 = Ok d
    ∧ ClosedPositions.closed a = (Dashboard.closed_positions d, Dashboard.closed_pct d)
    ∧ ClosedPositions.open a = (Dashboard.open_positions d, Dashboard.open_pct d)
    ∧ ClosedPositions.unknown a
      = (Dashboard.unknown_positions d, Dashboard.unknown_pct d).
Proof. apply (console_closure_shares_eq_dashboard rows3). discriminate. Defined.

Lemma closure_shares_sum_to_100_witness :
  ∃ a nc no nu pc po pu,
    analyze_closed_positions rows3 = Ok a
    ∧ ClosedPositions.closed a = (nc, fl pc)
    ∧ ClosedPositions.open a = (no, fl po)
    ∧ ClosedPositions.unknown a = (nu, fl pu)
    ∧ (nc + no + nu = length rows3)%nat
    ∧ (pc + po + pu == 100)%Q
    ∧ (0 <= pc)%Q ∧ (0 <= po)%Q ∧ (0 <= pu)%Q.
Proof.
  apply (closure_shares_sum_to_100 rows3); [discriminate|].
  repeat (apply List.Forall_cons; [cbn; auto|]). apply List.Forall_nil.
Defined.

(** X4.  The closure-rate loop never raises.  It reports one row per quality
    present, in ascending order, with the closed and total counts of that
    quality and a rate in [0,100]; the totals add up to the number of records
    and the closed counts to the number of closed positions.  The chart and
    the console analysis show these same rows. *)
Theorem closure_rate_by_quality_rows (df : DataFrame) :
  ∃ rows,
    closure_rate_loop df (sorted (unique (Quality <$> df))) = Ok rows
    ∧ closure_rate_rows df rows
    ∧ (∃ d, plot_closed_positions_distribution df = Ok d
          ∧ ClosedDistribution.quality_closure d = (λ x, (x.1.1.1, x.2)) <$> rows)
    ∧ (∀ a, analyze_closed_positions df = Ok a →
            ClosedPositions.closure_rate_by_quality a = rows).
Proof.
  exists (closure_row df <$> sorted (unique (Quality <$> df))).
  split; [apply closure_rate_loop_present|]. split; [apply closure_rows_spec|].
  split.
  - unfold plot_closed_positions_distribution. rewrite closure_rate_loop_present.
    eexists. split; reflexivity.
  - intros a Ha. destruct (decide (df = [])) as [->|Hne]; [done|].
    rewrite (analyze_closed_positions_nonempty df Hne) in Ha. by injection Ha as <-.
Qed.

(** On one group of rows, the console's mean-based rate against the
    dashboard's guarded percentage. *)
Lemma group_rate_console_vs_dashboard (sub : DataFrame) :
  let console := times100 (mean_bool (is_Y <$> (Interviews <$> sub))) in
  let dashboard :=
    pct_or_0_value (length (filter (λ r, Interviews r = "Y") sub)) (length sub) in
  (console = nan ↔ sub = [])
  ∧ (sub = [] → dashboard = fl 0)
  ∧ (sub ≠ [] →
     console = dashboard
     ∧ ∃ p, console = fl p ∧ (0 <= p)%Q ∧ (p <= 100)%Q
          ∧ (p * of_int (length sub)
             == 100 * of_int (length (filter (λ r, Interviews r = "Y") sub)))%Q).
Proof.
  intros console dashboard.
  destruct (decide (sub = [])) as [E|Hne].
  - unfold console, dashboard. rewrite E. cbn.
    split; [done|]. split; [done|]. by intros [].
  - pose proof (length_pos_nonempty sub Hne) as Hpos.
    pose proof (pct_mean sub Hpos) as Hpct. fold console in Hpct.
    rewrite pct_pos in Hpct by done. injection Hpct as Hpct.
    unfold dashboard. rewrite <- Hpct.
    split; [split; [discriminate|done]|]. split; [done|].
    intros _. rewrite pct_or_0_value_pos by done. split; [done|].
    eexists. split; [reflexivity|].
    destruct (pct_value_bounds (length (filter (λ r, Interviews r = "Y") sub))
                (length sub) (length_filter _ _) Hpos) as [H0 H100].
    split; [done|]. split; [done|]. by apply pct_value_char.
Qed.

(** X5.  The console's interview rate with (without) recruiter is NaN exactly
    when no record has a recruiter flag "Y" ("N"); the dashboard reports 0
    then.  Whenever the group is non-empty the two agree on a number in
    [0,100]. *)
Theorem recruiter_rates_console_vs_dashboard (df : DataFrame) :
  let with_recruiter := filter (λ r, Recruiter r = "Y") df in
  let without_recruiter := filter (λ r, Recruiter r = "N") df in
  let console := analyze_interview_success df in
  ∃ d, generate_html_dashboard df = Ok d
     ∧ (InterviewSuccess.recruiter_interview_rate console = nan
        ↔ with_recruiter = [])
     ∧ (InterviewSuccess.no_recruiter_interview_rate console = nan
        ↔ without_recruiter = [])
     ∧ (with_recruiter = [] → Dashboard.recruiter_interview_rate d = fl 0)
     ∧ (without_recruiter = [] → Dashboard.no_recruiter_interview_rate d = fl 0)
     ∧ (with_recruiter ≠ [] →
        InterviewSuccess.recruiter_interview_rate console
        = Dashboard.recruiter_interview_rate d
        ∧ ∃ p, Dashboard.recruiter_interview_rate d = fl p
             ∧ (0 <= p)%Q ∧ (p <= 100)%Q)
     ∧ (without_recruiter ≠ [] →
        InterviewSuccess.no_recruiter_interview_rate console
        = Dashboard.no_recruiter_interview_rate d
        ∧ ∃ p, Dashboard.no_recruiter_interview_rate d = fl p
             ∧ (0 <= p)%Q ∧ (p <= 100)%Q).
Proof.
  intros sub_y sub_n console.
  destruct (generate_html_dashboard_ok df)
    as (d & Hd & _ & _ & _ & _ & _ & Hr & Hn).
  exists d. split; [done|]. fold sub_y in Hr. fold sub_n in Hn. rewrite Hr, Hn.
  destruct (group_rate_console_vs_dashboard sub_y) as (Hy1 & Hy2 & Hy3).
  destruct (group_rate_console_vs_dashboard sub_n) as (Hn1 & Hn2 & Hn3).
  split; [exact Hy1|]. split; [exact Hn1|]. split; [exact Hy2|].
  split; [exact Hn2|]. split.
  - intros Hne. destruct (Hy3 Hne) as (Heq & p & Hp & H0 & H100 & _).
    split; [exact Heq|]. exists p. by rewrite <- Heq.
  - intros Hne. destruct (Hn3 Hne) as (Heq & p & Hp & H0 & H100 & _).
    split; [exact Heq|]. exists p. by rewrite <- Heq.
Qed.

(** X10.  On a non-empty record set the closed-position timeline lists, in
    ascending month order, exactly the months in which some position closed,
    each with the number of positions closed in it; the counts add up to the
    closed count printed above it. *)
Theorem closed_timeline_accounts_for_closed (df : DataFrame) :
  df ≠ [] →
  ∃ a, analyze_closed_positions df = Ok a
     ∧ let timeline := ClosedPositions.closed_by_month a in
       let closed_df := filter (λ r, Closed r = "Y") df in
       StronglySorted Z.lt timeline.*1
       ∧ (∀ m c, (m, c) ∈ timeline → (0 < c)%nat ∧ c = rows_in_month closed_df m)
       ∧ (∀ m, (0 < rows_in_month closed_df m)%nat → m ∈ timeline.*1)
       ∧ sum_list timeline.*2 = (ClosedPositions.closed a).1.
Proof.
  intros Hne. exists (closure_analysis df).
  split; [by apply analyze_closed_positions_nonempty|]. cbn.
  set (closed_df := filter (λ r, Closed r = "Y") df).
  split; [apply keys_ascending_filter, resample_M_size_keys_ascending|].
  split; [|split].
  - intros m c [Hc Hin]%list_elem_of_filter. split; [done|].
    by apply elem_of_resample_M_size.
  - intros m Hm. apply rows_in_month_in_span in Hm as Hspan.
    apply elem_of_resample_M_size_keys in Hspan.
    apply list_elem_of_fmap in Hspan as ([m' c] & -> & Hin). cbn.
    apply list_elem_of_fmap. exists (m', c). split; [done|].
    apply list_elem_of_filter. split; [|done].
    apply elem_of_resample_M_size in Hin as ->. done.
  - rewrite sum_list_filter_pos. apply resample_M_size_sum.
Qed.

Lemma closed_timeline_accounts_for_closed_witness :
  ∃ a, analyze_closed_positions rows3 = Ok a
     ∧ let timeline := ClosedPositions.closed_by_month a in
       let closed_df := filter (λ r, Closed r = "Y") rows3 in
       StronglySorted Z.lt timeline.*1
       ∧ (∀ m c, (m, c) ∈ timeline → (0 < c)%nat ∧ c = rows_in_month closed_df m)
       ∧ (∀ m, (0 < rows_in_month closed_df m)%nat → m ∈ timeline.*1)
       ∧ sum_list timeline.*2 = (ClosedPositions.closed a).1.
Proof. apply (closed_timeline_accounts_for_closed rows3). discriminate. Defined.

(** X6.  The monthly series lose no record: the applications per month add
    up to the total number of applications, and the interviews per month to
    the number of applications with interviews. *)
Theorem monthly_series_account_for_every_row (df : DataFrame) :
  sum_list (plot_applications_over_time df).*2
  = Total_Applications (generate_basic_metrics df)
  ∧ sum_list (plot_interviews_per_month df).*2
    = Applications_with_Interviews (generate_basic_metrics df).
Proof. split; apply resample_M_size_sum. Qed.

Section table.
Implicit Types (df : DataFrame).

Lemma ts_le_total (a b : Timestamp) : ts_le a b ∨ ts_le b a.
Proof. unfold ts_le. lia. Qed.

Lemma ts_le_trans (a b c : Timestamp) : ts_le a b → ts_le b c → ts_le a c.
Proof. unfold ts_le. lia. Qed.

Lemma row_date_le_total :
  Total (λ a b : Row Timestamp, ts_le (Date a) (Date b)).
Proof. intros a b. apply ts_le_total. Qed.

Lemma row_date_le_trans :
  Transitive (λ a b : Row Timestamp, ts_le (Date a) (Date b)).
Proof. intros a b c. apply ts_le_trans. Qed.

Lemma sort_values_Date_sorted df :
  StronglySorted (λ a b, ts_le (Date a) (Date b)) (sort_values_Date df).
Proof.
  pose proof row_date_le_total. pose proof row_date_le_trans.
  apply (StronglySorted_merge_sort _).
Qed.

Lemma sort_values_Date_Permutation df : sort_values_Date df ≡ₚ df.
Proof. apply merge_sort_Permutation. Qed.

Lemma table_eq df :
  plot_high_quality_interview_table df
  = table_row_of <$> sort_values_Date (filter high_quality_mask df).
Proof.
  unfold plot_high_quality_interview_table. by rewrite <- list_fmap_compose.
Qed.

Lemma high_quality_split_length df :
  (length (filter (λ r, Quality r = 1%Z) (filter (λ r, Interviews r = "Y") df))
   + length (filter (λ r, Quality r = 2%Z) (filter (λ r, Interviews r = "Y") df))
   = length (filter high_quality_mask df))%nat.
Proof.
  induction df as [|r df IH]; [done|].
  rewrite !(filter_cons _ r df).
  destruct (decide (Interviews r = "Y")) as [Hi|Hi].
  - rewrite !filter_cons.
    destruct (decide (Quality r = 1%Z)) as [H1|H1];
    destruct (decide (Quality r = 2%Z)) as [H2|H2]; try lia.
    + rewrite decide_True; [cbn; lia|]. split; [rewrite H1; set_solver|done].
    + rewrite decide_True; [cbn; lia|]. split; [rewrite H2; set_solver|done].
    + rewrite decide_False; [done|]. intros [Hq _].
      rewrite !elem_of_cons, elem_of_nil in Hq. tauto.
  - rewrite decide_False; [done|]. by intros [_ ?].
Qed.

Lemma high_quality_split_length_table df :
  (length (filter (λ r, Quality r = 1%Z) (filter (λ r, Interviews r = "Y") df))
   + length (filter (λ r, Quality r = 2%Z) (filter (λ r, Interviews r = "Y") df))
   = length (plot_high_quality_interview_table df))%nat.
Proof.
  by rewrite high_quality_split_length, table_eq, length_fmap,
    sort_values_Date_Permutation.
Qed.

Lemma same_index_NoDup (s1 s2 : MonthSeries) :
  NoDup (HighQualityPerMonth.all_months (same_index s1 s2)).
Proof. apply NoDup_sorted, NoDup_elements. Qed.

(** Reindexing a resampled series on months that cover its rows keeps
    every row counted once. *)
Lemma reindex_resample_sum (sub : DataFrame) (idx : list Z) :
  NoDup idx →
  (∀ r, r ∈ sub → month_ord (Date r) ∈ idx) →
  sum_list (reindex (resample_M_size sub) idx).*2 = length sub.
Proof.
  intros Hnd Hcover. unfold reindex. rewrite <- list_fmap_compose.
  rewrite <- (count_by_partition (month_ord ∘ Date) sub idx Hnd) by done.
  f_equal. apply list_fmap_ext. intros _ m _. cbn.
  apply resample_lookup_default.
Qed.

End table.

(** X8.  The table shows exactly the records of quality 1 or 2 that were
    interviewed, each once, in chronological order, with the date formatted
    and the other five columns as they are. *)
Theorem high_quality_table_is_sorted_selection (df : DataFrame) :
  ∃ rows : DataFrame,
    plot_high_quality_interview_table df = table_row_of <$> rows
    ∧ rows ≡ₚ filter (λ r, (Quality r = 1 ∨ Quality r = 2)%Z ∧ Interviews r = "Y") df
    ∧ StronglySorted (λ a b, ts_le (Date a) (Date b)) rows
    ∧ length (plot_high_quality_interview_table df)
      = length (filter (λ r, (Quality r = 1 ∨ Quality r = 2)%Z ∧ Interviews r = "Y") df).
Proof.
  assert (filter (λ r, (Quality r = 1 ∨ Quality r = 2)%Z ∧ Interviews r = "Y") df
          = filter high_quality_mask df) as ->.
  { apply list_filter_iff. intros r. unfold high_quality_mask.
    rewrite !elem_of_cons, elem_of_nil. tauto. }
  exists (sort_values_Date (filter high_quality_mask df)).
  split; [apply table_eq|]. split; [apply sort_values_Date_Permutation|].
  split; [apply sort_values_Date_sorted|].
  by rewrite table_eq, length_fmap, sort_values_Date_Permutation.
Qed.

(** X17.  Every table row gets a colour; it is light green exactly when the
    row's quality is 1 and light yellow exactly when it is 2. *)
Theorem table_rows_green_or_yellow_by_quality (df : DataFrame) :
  let table_data := plot_high_quality_interview_table df in
  length (table_row_colors table_data) = length table_data
  ∧ ∀ i row color,
      table_data !! i = Some row → table_row_colors table_data !! i = Some color →
      (color = "#E8F5E9" ↔ row.1.1.2 = 1%Z) ∧ (color = "#FFF9C4" ↔ row.1.1.2 = 2%Z).
Proof.
  intros table_data. split; [apply length_fmap|].
  intros i row color Hrow Hcolor. unfold table_row_colors in Hcolor.
  rewrite list_lookup_fmap, Hrow in Hcolor. injection Hcolor as <-.
  assert (row.1.1.2 = 1 ∨ row.1.1.2 = 2)%Z as Hq.
  { apply list_elem_of_lookup_2 in Hrow. unfold table_data in Hrow.
    rewrite table_eq in Hrow.
    apply list_elem_of_fmap in Hrow as (r & -> & Hr).
    rewrite sort_values_Date_Permutation in Hr.
    apply list_elem_of_filter in Hr as [[Hq _] _]. cbn.
    rewrite !elem_of_cons, elem_of_nil in Hq. tauto. }
  unfold row_color. case_decide; split; split; try done; try lia.
Qed.

Lemma stacked_series_sums (df : DataFrame) :
  let res := plot_high_quality_interviews_per_month df in
  sum_list (HighQualityPerMonth.monthly_q1 res).*2
  = length (filter (λ r, Quality r = 1%Z) (filter (λ r, Interviews r = "Y") df))
  ∧ sum_list (HighQualityPerMonth.monthly_q2 res).*2
    = length (filter (λ r, Quality r = 2%Z) (filter (λ r, Interviews r = "Y") df)).
Proof.
  intros res.
  unfold res, plot_high_quality_interviews_per_month, same_index.
  cbn [HighQualityPerMonth.monthly_q1 HighQualityPerMonth.monthly_q2].
  set (q1 := filter (λ r, Quality r = 1%Z) _).
  set (q2 := filter (λ r, Quality r = 2%Z) _).
  destruct (same_index_axis (resample_M_size q1) (resample_M_size q2))
    as [_ Hmem].
  pose proof (same_index_NoDup (resample_M_size q1) (resample_M_size q2)) as Hnd.
  cbn in Hmem, Hnd.
  split; apply reindex_resample_sum; try done.
  - intros r Hr. apply Hmem. left. apply elem_of_resample_M_size_keys.
    exists r, r. repeat split; auto; lia.
  - intros r Hr. apply Hmem. right. apply elem_of_resample_M_size_keys.
    exists r, r. repeat split; auto; lia.
Qed.

Lemma stacked_series_sum (df : DataFrame) :
  let res := plot_high_quality_interviews_per_month df in
  (sum_list (HighQualityPerMonth.monthly_q1 res).*2
   + sum_list (HighQualityPerMonth.monthly_q2 res).*2
   = length (plot_high_quality_interview_table df))%nat.
Proof.
  intros res. unfold res. destruct (stacked_series_sums df) as [-> ->].
  apply high_quality_split_length_table.
Qed.

(** X7.  In the high-quality chart the quality-1 series adds up to the number
    of quality-1 interviews and the quality-2 series to the number of
    quality-2 interviews; together they account for exactly the rows of the
    high-quality interview table. *)
Theorem stacked_series_account_for_table_rows (df : DataFrame) :
  let res := plot_high_quality_interviews_per_month df in
  let q1 := filter (λ r, Quality r = 1%Z) (filter (λ r, Interviews r = "Y") df) in
  let q2 := filter (λ r, Quality r = 2%Z) (filter (λ r, Interviews r = "Y") df) in
  sum_list (HighQualityPerMonth.monthly_q1 res).*2 = length q1
  ∧ sum_list (HighQualityPerMonth.monthly_q2 res).*2 = length q2
  ∧ (length q1 + length q2 = length (plot_high_quality_interview_table df))%nat.
Proof.
  intros res q1 q2. destruct (stacked_series_sums df) as [H1 H2].
  split; [exact H1|]. split; [exact H2|]. apply high_quality_split_length_table.
Qed.

Section basic.
Implicit Types (df : DataFrame).



Lemma total_quality_bounds df (lo hi : Z) :
  (∀ r, r ∈ df → lo ≤ Quality r ≤ hi)%Z →
  (lo * Z.of_nat (length df) ≤ total_quality df ≤ hi * Z.of_nat (length df))%Z.
Proof.
  induction df as [|r df IH]; intros Hb; [cbn; lia|].
  assert (lo ≤ Quality r ≤ hi)%Z by (apply Hb; left).
  assert (lo * Z.of_nat (length df) ≤ total_quality df ≤ hi * Z.of_nat (length df))%Z
    by (apply IH; intros r' Hr'; apply Hb; by right).
  cbn [length total_quality]. lia.
Qed.

Lemma value_counts_lookup (l : list string) (x : string) :
  default O (value_counts l !! x) = length (filter (λ y, y = x) l)
  ∧ (value_counts l !! x = None ↔ x ∉ l).
Proof.
  induction l as [|y l [IHc IHn]].
  - cbn. rewrite lookup_empty. split; [done|].
    split; [intros _; apply not_elem_of_nil|done].
  - change (value_counts (y :: l))
      with (<[y := S (default O (value_counts l !! y))]> (value_counts l)).
    rewrite filter_cons.
    destruct (decide (y = x)) as [->|Hne].
    + rewrite lookup_insert_eq. cbn. rewrite IHc. split; [done|].
      split; [done|]. intros []. left.
    + rewrite lookup_insert_ne by done. split; [done|].
      rewrite IHn, not_elem_of_cons. split; [by intros ?; split|by intros [_ ?]].
Qed.

Lemma pct_or_0_value_bounds (a b : nat) :
  (a ≤ b)%nat →
  ∃ p, pct_or_0_value a b = fl p ∧ (0 <= p)%Q ∧ (p <= 100)%Q
     ∧ (p * of_int b == 100 * of_int a)%Q.
Proof.
  intros Hab. destruct b as [|b].
  - exists 0%Q. assert (a = 0)%nat as -> by lia. done.
  - exists (of_int a / of_int (S b) * 100)%Q. split; [done|].
    destruct (pct_value_bounds a (S b) Hab ltac:(lia)).
    repeat split; try done. apply pct_value_char. lia.
Qed.

End basic.

(** X11.  If every quality of a non-empty record set lies between [lo] and
    [hi], so does the average quality score. *)
Theorem average_quality_within_range (df : DataFrame) (lo hi : Z) :
  df ≠ [] →
  (∀ r, r ∈ df → lo ≤ Quality r ≤ hi)%Z →
  ∃ p, Average_Quality_Score (generate_basic_metrics df) = fl p
     ∧ (inject_Z lo <= p)%Q ∧ (p <= inject_Z hi)%Q.
Proof.
  intros Hne Hb. pose proof (length_pos_nonempty df Hne) as Hpos.
  pose proof (total_quality_bounds df lo hi Hb) as [Hlo Hhi].
  destruct df as [|r df]; [done|].
  eexists. split; [reflexivity|].
  rewrite length_fmap, total_quality_foldr.
  pose proof (of_int_pos _ Hpos) as Hq. unfold of_int in *.
  split.
  - apply Qle_shift_div_l; [done|]. rewrite <- inject_Z_mult, <- Zle_Qle. lia.
  - apply Qle_shift_div_r; [done|]. rewrite <- inject_Z_mult, <- Zle_Qle. lia.
Qed.

Lemma average_quality_within_range_witness :
  ∃ p, Average_Quality_Score (generate_basic_metrics rows3) = fl p
     ∧ (inject_Z 1 <= p)%Q ∧ (p <= inject_Z 3)%Q.
Proof.
  apply (average_quality_within_range rows3 1 3); [discriminate|].
  intros r Hr. unfold rows3 in Hr. rewrite !elem_of_cons, elem_of_nil in Hr.
  destruct Hr as [->|[->|[->|[]]]]; cbn; lia.
Defined.


(** X13.  The dashboard never raises, and its six percentages (interview
    rate, closed, open, unknown, with and without recruiter) are numbers in
    [0,100]; the interview rate times the number of applications is 100 times
    the number of interviews; on the empty record set all six are 0. *)
Theorem dashboard_percentages_in_range (df : DataFrame) :
  ∃ d pi pc po pu pr pn,
    generate_html_dashboard df = Ok d
    ∧ Dashboard.interview_rate d = fl pi
    ∧ Dashboard.closed_pct d = fl pc
    ∧ Dashboard.open_pct d = fl po
    ∧ Dashboard.unknown_pct d = fl pu
    ∧ Dashboard.recruiter_interview_rate d = fl pr
    ∧ Dashboard.no_recruiter_interview_rate d = fl pn
    ∧ Forall (λ p, 0 <= p ∧ p <= 100)%Q [pi; pc; po; pu; pr; pn]
    ∧ (pi * of_int (Dashboard.total_apps d) == 100 * of_int (Dashboard.interviews d))%Q
    ∧ (df = [] → [pi; pc; po; pu; pr; pn] = [0; 0; 0; 0; 0; 0]%Q).
Proof.
  destruct (generate_html_dashboard_ok df)
    as (d & Hd & _ & Hi & Hc & Ho & Hu & Hr & Hn).
  destruct (pct_or_0_value_bounds _ (length df)
              (length_filter (λ r, Interviews r = "Y") df)) as (pi & Ei & ? & ? & Hchar).
  destruct (pct_or_0_value_bounds _ (length df)
              (length_filter (λ r, Closed r = "Y") df)) as (pc & Ec & ? & ? & _).
  destruct (pct_or_0_value_bounds _ (length df)
              (length_filter (λ r, Closed r = "N") df)) as (po & Eo & ? & ? & _).
  destruct (pct_or_0_value_bounds _ (length df)
              (length_filter (λ r, Closed r = "I") df)) as (pu & Eu & ? & ? & _).
  destruct (pct_or_0_value_bounds _ _
              (length_filter (λ r, Interviews r = "Y")
                 (filter (λ r, Recruiter r = "Y") df))) as (pr & Er & ? & ? & _).
  destruct (pct_or_0_value_bounds _ _
              (length_filter (λ r, Interviews r = "Y")
                 (filter (λ r, Recruiter r = "N") df))) as (pn & En & ? & ? & _).
  exists d, pi, pc, po, pu, pr, pn.
  rewrite Hi, Hc, Ho, Hu, Hr, Hn.
  repeat (split; [done|]). split; [repeat constructor; done|]. split.
  - unfold generate_html_dashboard in Hd. rewrite !pct_or_0_ok in Hd.
    rewrite interview_rates_loop_groupby in Hd. injection Hd as <-. exact Hchar.
  - intros ->. cbn in *. congruence.
Qed.

(** X14.  The status counts of the pie chart are the closed, open and unknown
    counts of the basic metrics, and a status has an entry exactly when some
    record carries it. *)
Theorem status_counts_match_basic_metrics (df : DataFrame) :
  ∃ d, plot_closed_positions_distribution df = Ok d
     ∧ let status_counts := ClosedDistribution.status_counts d in
       let m := generate_basic_metrics df in
       default O (status_counts !! "Y") = Closed_Positions m
       ∧ default O (status_counts !! "N") = Open_Positions m
       ∧ default O (status_counts !! "I") = Unknown_Status_Positions m
       ∧ ∀ status, status_counts !! status = None ↔ ¬ ∃ r, r ∈ df ∧ Closed r = status.
Proof.
  unfold plot_closed_positions_distribution. rewrite closure_rate_loop_present.
  eexists. split; [reflexivity|]. cbn.
  assert (∀ x, length (filter (λ y, y = x) (Closed <$> df))
               = length (filter (λ r, Closed r = x) df)) as Hlen.
  { intros x. induction df as [|r df IH]; [done|]. cbn [fmap list_fmap].
    rewrite !filter_cons. repeat case_decide; cbn; congruence. }
  repeat split.
  1-3: by rewrite (proj1 (value_counts_lookup _ _)), Hlen.
  - intros Hnone (r & Hr & <-).
    apply (proj2 (value_counts_lookup _ _)) in Hnone. apply Hnone.
    apply list_elem_of_fmap. eauto.
  - intros Hno. apply (proj2 (value_counts_lookup _ _)).
    intros (r & -> & Hr)%list_elem_of_fmap. apply Hno. eauto.
Qed.

Section strftime.
Local Open Scope Z_scope.

Lemma append_inj_length (a a' b b' : string) :
  String.length a = String.length a' →
  a +:+ b = a' +:+ b' → a = a' ∧ b = b'.
Proof.
  revert a'. induction a as [|c a IH]; intros [|c' a'] Hlen E;
    try discriminate; [done|].
  cbn in Hlen, E. injection Hlen as Hlen. injection E as -> E.
  destruct (IH a' Hlen E) as [-> ->]. done.
Qed.

Lemma length_append (a b : string) :
  String.length (a +:+ b) = (String.length a + String.length b)%nat.
Proof. induction a as [|c a IH]; [done|]. simpl. by f_equal. Qed.

Lemma length_zero_padded (w : nat) (n : Z) :
  String.length (zero_padded w n) = w.
Proof.
  revert n. induction w as [|w IH]; intros n; cbn; [done|].
  rewrite length_append, IH. cbn. lia.
Qed.

Lemma digit_inj (a b : Z) : digit a = digit b → a `mod` 10 = b `mod` 10.
Proof.
  unfold digit. intros E%(f_equal Ascii.nat_of_ascii).
  pose proof (Z.mod_pos_bound a 10 ltac:(lia)).
  pose proof (Z.mod_pos_bound b 10 ltac:(lia)).
  rewrite !Ascii.nat_ascii_embedding in E by lia. lia.
Qed.

(** The padded digits determine the number up to [10 ^ width]. *)
Lemma zero_padded_inj (w : nat) (a b : Z) :
  zero_padded w a = zero_padded w b →
  a `mod` 10 ^ Z.of_nat w = b `mod` 10 ^ Z.of_nat w.
Proof.
  revert a b. induction w as [|w IH]; intros a b E.
  - cbn. by rewrite !Z.mod_1_r.
  - cbn [zero_padded] in E.
    apply append_inj_length in E as [E1 E2];
      [|by rewrite !length_zero_padded].
    apply IH in E1. injection E2 as E2%digit_inj.
    rewrite Nat2Z.inj_succ, Z.pow_succ_r by lia.
    rewrite !(Z.rem_mul_r _ 10 (10 ^ Z.of_nat w)) by lia.
    by rewrite E1, E2.
Qed.

Lemma zero_padded_inj_range (w : nat) (a b : Z) :
  0 ≤ a < 10 ^ Z.of_nat w → 0 ≤ b < 10 ^ Z.of_nat w →
  zero_padded w a = zero_padded w b → a = b.
Proof.
  intros Ha Hb E%zero_padded_inj. by rewrite !Z.mod_small in E.
Qed.

End strftime.

(** X9.  For dates with a year of at most four digits and a month and day of
    at most two, the display text has ten characters and determines the
    date: two dates with the same text are the same date. *)
Theorem strftime_determines_date (t1 t2 : Timestamp) :
  (0 ≤ year t1 < 10000 ∧ 0 ≤ month t1 < 100 ∧ 0 ≤ day t1 < 100)%Z →
  (0 ≤ year t2 < 10000 ∧ 0 ≤ month t2 < 100 ∧ 0 ≤ day t2 < 100)%Z →
  String.length (strftime t1) = 10%nat
  ∧ (strftime t1 = strftime t2 → t1 = t2).
Proof.
  intros (Hy1 & Hm1 & Hd1) (Hy2 & Hm2 & Hd2). split.
  - unfold strftime. rewrite !length_append, !length_zero_padded. done.
  - unfold strftime. intros E.
    apply append_inj_length in E as [Em E]; [|by rewrite !length_zero_padded].
    apply append_inj_length in E as [_ E]; [|done].
    apply append_inj_length in E as [Ed E]; [|by rewrite !length_zero_padded].
    apply append_inj_length in E as [_ Ey]; [|done].
    apply (zero_padded_inj_range 2) in Em; [|done..].
    apply (zero_padded_inj_range 2) in Ed; [|done..].
    apply (zero_padded_inj_range 4) in Ey; [|done..].
    destruct t1, t2; cbn in *; congruence.
Qed.

Lemma strftime_determines_date_witness :
  String.length (strftime {| year := 2024; month := 1; day := 15 |}) = 10%nat
  ∧ (strftime {| year := 2024; month := 1; day := 15 |}
     = strftime {| year := 2024; month := 11; day := 5 |} →
     {| year := 2024; month := 1; day := 15 |}
     = {| year := 2024; month := 11; day := 5 |}).
Proof. apply strftime_determines_date; cbn; lia. Defined.

Section labels.
Implicit Types (positions : list nat).

Lemma stacked_bar_label_Some i a b l :
  stacked_bar_label i a b = Some l →
  label_x l = i ∧ label_y l = (a + b)%nat ∧ (0 < a + b)%nat.
Proof.
  unfold stacked_bar_label. repeat case_decide; intros [= <-]; cbn; lia.
Qed.

Lemma stacked_bar_label_None i a b :
  stacked_bar_label i a b = None ↔ (a + b = 0)%nat.
Proof. unfold stacked_bar_label. repeat case_decide; split; try done; lia. Qed.

Lemma stacked_bar_labels_loop_value (v1 v2 : list nat) positions :
  (∀ i, i ∈ positions → (i < length v1 ∧ i < length v2)%nat) →
  stacked_bar_labels_loop v1 v2 positions
  = Some (omap (λ i, stacked_bar_label i (v1 !!! i) (v2 !!! i)) positions).
Proof.
  induction positions as [|i positions IH]; intros Hb; [done|].
  destruct (Hb i ltac:(left)) as [H1 H2].
  cbn [stacked_bar_labels_loop omap list_omap].
  rewrite (list_lookup_lookup_total_lt v1 i H1), (list_lookup_lookup_total_lt v2 i H2).
  cbn [mbind option_bind]. rewrite IH by (intros j Hj; apply Hb; by right).
  cbn. by destruct (stacked_bar_label _ _ _).
Qed.

Lemma sum_label_y (v1 v2 : list nat) positions :
  sum_list (label_y <$> omap (λ i, stacked_bar_label i (v1 !!! i) (v2 !!! i)) positions)
  = sum_list ((λ i, v1 !!! i + v2 !!! i)%nat <$> positions).
Proof.
  induction positions as [|i positions IH]; [done|]. cbn.
  destruct (stacked_bar_label _ _ _) as [l|] eqn:E.
  - apply stacked_bar_label_Some in E as (_ & Hy & _). cbn.
    fold (sum_list (label_y <$> omap (λ i, stacked_bar_label i (v1 !!! i) (v2 !!! i)) positions)).
    rewrite Hy, IH. done.
  - apply stacked_bar_label_None in E. rewrite IH, E. done.
Qed.

Lemma fmap_lookup_total_seq (v : list nat) : (λ i, v !!! i) <$> seq 0 (length v) = v.
Proof.
  apply list_eq. intros i. rewrite list_lookup_fmap.
  destruct (decide (i < length v)%nat) as [Hi|Hi].
  - rewrite lookup_seq_lt by done. cbn.
    by rewrite (list_lookup_lookup_total_lt v i Hi).
  - rewrite lookup_seq_ge by lia. cbn. symmetry. apply lookup_ge_None. lia.
Qed.

Lemma sum_list_lookup_total_2 (v1 v2 : list nat) :
  length v1 = length v2 →
  sum_list ((λ i, v1 !!! i + v2 !!! i)%nat <$> seq 0 (length v1))
  = (sum_list v1 + sum_list v2)%nat.
Proof.
  intros Hlen. rewrite sum_list_fmap_plus.
  rewrite (fmap_lookup_total_seq v1). rewrite Hlen.
  by rewrite (fmap_lookup_total_seq v2).
Qed.

Lemma reindex_values (s : MonthSeries) (idx : list Z) :
  length (reindex s idx).*2 = length idx.
Proof. unfold reindex. by rewrite !length_fmap. Qed.

Lemma reindex_resample_values (sub : DataFrame) (idx : list Z) :
  (reindex (resample_M_size sub) idx).*2 = rows_in_month sub <$> idx.
Proof.
  unfold reindex. rewrite <- list_fmap_compose. apply list_fmap_ext.
  intros _ m _. cbn. apply resample_lookup_default.
Qed.

Lemma fmap_lookup_total_Some (f : Z → nat) (idx : list Z) i m :
  idx !! i = Some m → (f <$> idx) !!! i = f m.
Proof.
  intros Hm. apply list_lookup_total_correct. by rewrite list_lookup_fmap, Hm.
Qed.


End labels.

(** X16.  Placing the labels of the stacked bars never reads past the end
    of a series.  Every label sits at the top of its stack, whose height is
    the number of quality-1 plus quality-2 interviews of that month; every
    month with such an interview gets a label; and the label heights add up to
    the number of rows of the high-quality interview table. *)
Theorem stacked_bar_labels_sit_on_top (df : DataFrame) :
  let res := plot_high_quality_interviews_per_month df in
  let q1 := filter (λ r, Quality r = 1%Z) (filter (λ r, Interviews r = "Y") df) in
  let q2 := filter (λ r, Quality r = 2%Z) (filter (λ r, Interviews r = "Y") df) in
  ∃ labels,
    stacked_bar_labels res = Some labels
    ∧ (∀ l, l ∈ labels →
         ∃ m, HighQualityPerMonth.all_months res !! label_x l = Some m
            ∧ label_y l = (rows_in_month q1 m + rows_in_month q2 m)%nat
            ∧ (0 < label_y l)%nat)
    ∧ (∀ i m, HighQualityPerMonth.all_months res !! i = Some m →
         (0 < rows_in_month q1 m + rows_in_month q2 m)%nat →
         ∃ l, l ∈ labels ∧ label_x l = i)
    ∧ sum_list (label_y <$> labels) = length (plot_high_quality_interview_table df).
Proof.
  intros res q1 q2.
  set (idx := HighQualityPerMonth.all_months res).
  assert ((HighQualityPerMonth.monthly_q1 res).*2 = rows_in_month q1 <$> idx) as Hv1
    by apply reindex_resample_values.
  assert ((HighQualityPerMonth.monthly_q2 res).*2 = rows_in_month q2 <$> idx) as Hv2
    by apply reindex_resample_values.
  unfold stacked_bar_labels. fold idx. rewrite Hv1, Hv2.
  set (v1 := rows_in_month q1 <$> idx). set (v2 := rows_in_month q2 <$> idx).
  assert (length v1 = length idx) as Hl1 by apply length_fmap.
  assert (length v2 = length idx) as Hl2 by apply length_fmap.
  rewrite stacked_bar_labels_loop_value
    by (intros i Hi%elem_of_seq; lia).
  eexists. split; [reflexivity|]. split; [|split].
  - intros l (i & Hi & E)%list_elem_of_omap.
    apply elem_of_seq in Hi.
    apply stacked_bar_label_Some in E as (-> & -> & Hpos).
    destruct (lookup_lt_is_Some_2 idx i ltac:(lia)) as [m Hm].
    exists m. split; [done|].
    unfold v1, v2 in Hpos |- *.
    rewrite !(fmap_lookup_total_Some _ idx i m Hm) in Hpos |- *. done.
  - intros i m Hm Hpos.
    pose proof (lookup_lt_Some _ _ _ Hm) as Hi.
    destruct (stacked_bar_label i (v1 !!! i) (v2 !!! i)) as [l|] eqn:E.
    + exists l. split; [|by apply stacked_bar_label_Some in E as (-> & _)].
      apply list_elem_of_omap. exists i. split; [apply elem_of_seq; lia|done].
    + apply stacked_bar_label_None in E. unfold v1, v2 in E.
      rewrite !(fmap_lookup_total_Some _ idx i m Hm) in E. lia.
  - rewrite sum_label_y. rewrite <- Hl1.
    rewrite sum_list_lookup_total_2 by congruence.
    unfold v1, v2. rewrite <- Hv1, <- Hv2.
    apply stacked_series_sum.
Qed.

